(** * marker: PDF provider and span rendering

    A shallow embedding of [marker/v2/providers/pdf.py] (the [PdfProvider]
    class) and of [marker/schema/text/span.py] (the [Span] block and
    [cleanup_text]), followed by the properties established about them.

    Conventions.
    - A Python [str] holding document text or a font name is a list of
      Unicode code points ([str := list N]).  The fixed vocabulary of
      flag names and format tags is kept as Rocq [string] literals.
    - A Python [int] is a [Z]; [&] is [Z.land] and [<<] is [Z.shiftl]
      (both agree with Python on negative numbers, which behave as
      infinite two's complement).
    - A Python [set] of strings is a [gset string]; the [dict] from page
      index to lines is a [gmap Z _].
    - A Python [float] is a binary64 primitive float.
    - Calls that leave the two modules (the PDF engine, the text
      extractor, the OCR heuristic, the polygon constructor, the Unicode
      case tables) are fields of the [Collaborators] class. *)

From Stdlib Require Import ZArith NArith List Ascii String Lia.
From Stdlib Require Import Floats.PrimFloat.
From stdpp Require Import base option list gmap sets strings.

Local Open Scope Z_scope.
#[local] Set Warnings "-clear-no-such-hyp".

(** ** Python strings *)

Module Py.

Definition str := list N.

Definition ord (a : ascii) : N := N_of_ascii a.

(** [u "abc"] is the Python literal ['abc']. *)
Fixpoint u (s : string) : str :=
  match s with
  | EmptyString => []
  | String a r => ord a :: u r
  end.

Definition LF : N := 10.
Definition CR : N := 13.
Definition SPACE : N := 32.
Definition HYPHEN : N := 45.
Definition NBSP : N := 160.

(** [str.isspace] on one code point; also the class [\s] of [re] on
    [str] patterns and the characters removed by [str.strip()]. *)
Definition isspace (c : N) : bool :=
  ((9 <=? c) && (c <=? 13) || (28 <=? c) && (c <=? 32)
   || (c =? 133) || (c =? 160) || (c =? 5760)
   || (8192 <=? c) && (c <=? 8202)
   || (c =? 8232) || (c =? 8233) || (c =? 8239) || (c =? 8287)
   || (c =? 12288))%N.

Fixpoint lstrip_by (p : N -> bool) (s : str) : str :=
  match s with
  | [] => []
  | c :: r => if p c then lstrip_by p r else s
  end.

Definition rstrip_by (p : N -> bool) (s : str) : str :=
  rev (lstrip_by p (rev s)).

(** [s.strip()] *)
Definition strip (s : str) : str := rstrip_by isspace (lstrip_by isspace s).

(** [s.startswith(pat)] *)
Fixpoint startswith (pat s : str) : bool :=
  match pat, s with
  | [], _ => true
  | _ :: _, [] => false
  | a :: pat', b :: s' => (a =? b)%N && startswith pat' s'
  end.

(** [s.endswith(pat)] *)
Definition endswith (pat s : str) : bool := startswith (rev pat) (rev s).

(** [pat in s] *)
Fixpoint contains (pat s : str) : bool :=
  startswith pat s ||
  match s with
  | [] => false
  | _ :: r => contains pat r
  end.

(** [s.replace(old, new)] for a non-empty [old]: occurrences are found
    left to right and do not overlap.  [skip] counts the characters of
    the occurrence just replaced that are still to be dropped. *)
Fixpoint replace_go (old new : str) (skip : nat) (s : str) : str :=
  match s with
  | [] => []
  | c :: r =>
      match skip with
      | S k => replace_go old new k r
      | O =>
          if startswith old s
          then new ++ replace_go old new (pred (length old)) r
          else c :: replace_go old new O r
      end
  end.

Definition replace (old new s : str) : str := replace_go old new O s.

Definition ascii_lower (c : N) : N :=
  if ((65 <=? c) && (c <=? 90))%N then (c + 32)%N else c.

Definition isascii (s : str) : bool := forallb (fun c => (c <? 128)%N) s.

(** [html.escape(s)] with the default [quote=True]: five calls of
    [replace], the ampersand first. *)
Definition escape (s : str) : str :=
  let s := replace (u "&") (u "&amp;") s in
  let s := replace (u "<") (u "&lt;") s in
  let s := replace (u ">") (u "&gt;") s in
  let s := replace [34%N] (u "&quot;") s in
  let s := replace (u "'") (u "&#x27;") s in
  s.

End Py.

Import Py.

(** ** Page records returned by the text extractor

    [dictionary_output] returns one [dict] per page; the records below
    carry the keys that [setup] reads: [page], [blocks], [lines],
    [spans], [bbox], [text], [font] ([name], [flags], [weight], [size]),
    [char_start_idx] and [char_end_idx]. *)

Record RawFont := mkRawFont {
  rf_name : str;
  rf_flags : Z;
  rf_weight : float;
  rf_size : float;
}.

Record RawSpan := mkRawSpan {
  rs_bbox : list float;
  rs_text : str;
  rs_font : RawFont;
  rs_char_start_idx : Z;
  rs_char_end_idx : Z;
}.

Record RawLine := mkRawLine {
  rl_spans : list RawSpan;
  rl_bbox : list float;
}.

Record RawBlock := mkRawBlock {
  rb_lines : list RawLine;
}.

Record RawPage := mkRawPage {
  rp_page : Z;
  rp_blocks : list RawBlock;
}.

(** ** What the two modules call but do not define *)

Class Collaborators := {
  (** [str.lower] on a string with a code point outside ASCII (the
      Unicode case tables). *)
  unicode_lower : str -> str;
  (** [marker.ocr.heuristics.detect_bad_ocr] *)
  detect_bad_ocr : str -> bool;
  (** [marker.v2.schema.polygon.PolygonBox] and its [from_bbox] *)
  PolygonBox : Type;
  from_bbox : list float -> PolygonBox;
  (** [pypdfium2.PdfDocument]: opening a file may raise; [len(doc)] *)
  PdfDocument : Type;
  pdfium_open : str -> option PdfDocument;
  doc_len : PdfDocument -> Z;
  (** [pdftext.extraction.dictionary_output(filepath, page_range=...,
      keep_chars=..., workers=..., flatten_pdf=...)], which may raise. *)
  dictionary_output :
    str -> option (list Z) -> bool -> Z -> bool -> option (list RawPage);
  (** [PIL.Image.Image] and the body of [get_image]:
      [doc[idx].render(scale=dpi / 72, draw_annots=False).to_pil().convert("RGB")],
      which may raise. *)
  Image : Type;
  rasterize : PdfDocument -> Z -> Z -> option Image;
}.

(** [s.lower()] *)
Definition lower `{Collaborators} (s : str) : str :=
  if isascii s then map ascii_lower s else unicode_lower s.

(** ** Font classification ([PdfProvider.font_flags_to_format],
       [PdfProvider.font_names_to_format]) *)

Definition flag_map : list (Z * string) :=
  [ (1, "FixedPitch"); (2, "Serif"); (3, "Symbolic"); (4, "Script");
    (6, "Nonsymbolic"); (7, "Italic"); (17, "AllCap"); (18, "SmallCap");
    (19, "ForceBold"); (20, "UseExternAttr") ]%string.

(** Truth value of [flags & (1 << (bit_position - 1))]. *)
Definition flag_set (flags bit_position : Z) : bool :=
  negb (Z.land flags (Z.shiftl 1 (bit_position - 1)) =? 0).

(** The loop over [flag_map.items()]. *)
Definition collect_flags (flags : Z) : gset string :=
  foldl (fun set_flags '(bit_position, flag_name) =>
           if flag_set flags bit_position
           then set_flags ∪ {[ flag_name ]}
           else set_flags)
        ∅ flag_map.

(** [set_flags] as it stands before the decision table. *)
Definition flag_names (flags : Z) : gset string :=
  let set_flags := collect_flags flags in
  if bool_decide (set_flags = ∅) then set_flags ∪ {[ "Plain"%string ]}
  else set_flags.

(** The bits of [flags] at the positions of [flag_map] are set exactly
    for the flags listed in [names]; the other bits of [flags] are
    free. *)
Definition named_bits_are (flags : Z) (names : list string) : bool :=
  forallb (fun '(bit_position, flag_name) =>
             eqb (Z.testbit flags (bit_position - 1))
                 (bool_decide (flag_name ∈ names)))
          flag_map.

(** Truth value of a set used as a condition. *)
Definition nonempty (s : gset string) : bool := negb (bool_decide (s = ∅)).

Definition font_flags_to_format (flags : Z) : gset string :=
  let set_flags := flag_names flags in
  let formats : gset string := ∅ in
  if bool_decide (set_flags = {[ "Symbolic"; "Italic" ]}%string)
     || bool_decide (set_flags = {[ "Symbolic"; "Italic"; "UseExternAttr" ]}%string)
  then formats ∪ {[ "math"%string ]}
  else if bool_decide (set_flags = {[ "UseExternAttr"%string ]})
  then formats ∪ {[ "plain"%string ]}
  else if bool_decide (set_flags = {[ "Plain"%string ]})
  then formats ∪ {[ "plain"%string ]}
  else
    let formats :=
      if nonempty (set_flags ∩ {[ "Italic"%string ]})
      then formats ∪ {[ "italic"%string ]} else formats in
    let formats :=
      if nonempty (set_flags ∩ {[ "ForceBold"%string ]})
      then formats ∪ {[ "bold"%string ]} else formats in
    let formats :=
      if nonempty (set_flags ∩ {[ "FixedPitch"; "Serif"; "Script"; "Nonsymbolic";
                                  "AllCap"; "SmallCap"; "UseExternAttr" ]}%string)
      then formats ∪ {[ "plain"%string ]} else formats in
    formats.

Definition font_names_to_format `{Collaborators} (font_name : str) : gset string :=
  let formats : gset string := ∅ in
  let formats :=
    if contains (u "bold") (lower font_name)
    then formats ∪ {[ "bold"%string ]} else formats in
  let formats :=
    if contains (u "ital") (lower font_name)
    then formats ∪ {[ "italic"%string ]} else formats in
  formats.

(** The expression of [setup] that builds [font_formats]: the
    classifier of a span's font. *)
Definition classify `{Collaborators} (flags : Z) (font_name : str) : gset string :=
  font_flags_to_format flags ∪ font_names_to_format font_name.

(** ** Spans and lines

    [Span] as [span.py] declares it, with the fields it inherits from
    [Block] and that the two modules use ([polygon], [page_id],
    [ignore_for_output]).  [setup] builds its spans and lines from the
    classes of the same names in [marker.v2.schema], with these fields;
    [Line] carries what [setup] passes to it, and a span built by
    [setup] has the defaults of [span.py] for the fields it does not
    pass. *)

Record Span `{Collaborators} := mkSpan {
  polygon : PolygonBox;
  page_id : Z;
  ignore_for_output : bool;
  text : str;
  font : str;
  font_weight : float;
  font_size : float;
  minimum_position : Z;
  maximum_position : Z;
  formats : list string;
  url : option str;
  anchor : option str;
}.

Record Line `{Collaborators} := mkLine {
  line_polygon : PolygonBox;
  line_page_id : Z;
}.

Definition bold `{Collaborators} (self : Span) : bool :=
  bool_decide ("bold"%string ∈ formats self).

Definition italic `{Collaborators} (self : Span) : bool :=
  bool_decide ("italic"%string ∈ formats self).

Definition math `{Collaborators} (self : Span) : bool :=
  bool_decide ("math"%string ∈ formats self).

(** Truth value of an [Optional[str]]: [None] and the empty string are
    false. *)
Definition truthy (o : option str) : bool :=
  match o with
  | Some (_ :: _) => true
  | _ => false
  end.

(** [{x}] inside an f-string. *)
Definition fmt (o : option str) : str :=
  match o with
  | Some s => s
  | None => u "None"
  end.

(** ** Rendering ([cleanup_text], [Span.assemble_html]) *)

(** Number of consecutive matches of [\n\s] at the head of [s]. *)
Fixpoint count_units (s : str) : nat :=
  match s with
  | a :: b :: r => if (a =? LF)%N && isspace b then S (count_units r) else O
  | _ => O
  end.

(** [re.sub(r'(\n\s){3,}', '\n\n', s)]: the greedy, leftmost,
    non-overlapping matches are replaced.  [skip] counts the characters
    of the match just replaced that are still to be dropped. *)
Fixpoint sub_go (skip : nat) (s : str) : str :=
  match s with
  | [] => []
  | c :: r =>
      match skip with
      | S k => sub_go k r
      | O =>
          let n := count_units s in
          if (3 <=? n)%nat
          then [LF; LF] ++ sub_go (pred (2 * n)) r
          else c :: sub_go O r
      end
  end.

Definition re_sub_newlines (s : str) : str := sub_go O s.

Definition cleanup_text (full_text : str) : str :=
  let full_text := re_sub_newlines full_text in
  let full_text := replace [NBSP] [SPACE] full_text in
  full_text.

Definition is_newline (c : N) : bool := (c =? LF)%N || (c =? CR)%N.

(** The first [while] loop of [assemble_html], run on the reversed
    text: it drops trailing newlines and records whether it dropped
    any. *)
Fixpoint drop_trailing (rtext : str) (replaced_newline : bool) : str * bool :=
  match rtext with
  | [] => ([], replaced_newline)
  | c :: r =>
      if is_newline c then drop_trailing r true
      else (rtext, replaced_newline)
  end.

(** Lines 44 to 61 of [span.py]: the text before any wrapper. *)
Definition prepared_text `{Collaborators} (self : Span) : str :=
  let text := text self in
  let '(rtext, replaced_newline) := drop_trailing (rev text) false in
  let text := rev rtext in
  let text := lstrip_by is_newline text in
  let text :=
    if replaced_newline && negb (endswith [HYPHEN] text)
    then text ++ [SPACE] else text in
  let text := replace [HYPHEN; LF] [] text in
  let text := escape text in
  let text := cleanup_text text in
  text.

Definition assemble_html `{Collaborators} {A B : Type}
    (self : Span) (child_blocks : A) (parent_structure : B) : str :=
  if ignore_for_output self then []
  else
    let text := prepared_text self in
    if italic self then u "<i>" ++ text ++ u "</i>"
    else if bold self then u "<b>" ++ text ++ u "</b>"
    else if math self then u "<math display='inline'>" ++ text ++ u "</math>"
    else if truthy (url self) && truthy (anchor self) then
      u "<span id='" ++ fmt (anchor self) ++ u "'><a href='" ++ fmt (url self)
        ++ u "'>" ++ text ++ u "</a></span>"
    else if truthy (url self) then
      u "<a href='" ++ fmt (url self) ++ u "'>" ++ text ++ u "</a>"
    else if truthy (anchor self) then
      u "<span id='" ++ fmt (anchor self) ++ u "'>" ++ text ++ u "</span>"
    else text.

(** The wrappers of [assemble_html] and their priority order, as the
    specification lists them. *)
Inductive Wrapper :=
  | WItalic | WBold | WMath | WUrlAnchor | WUrl | WAnchor.

Definition priority : list Wrapper :=
  [WItalic; WBold; WMath; WUrlAnchor; WUrl; WAnchor].

Definition applies `{Collaborators} (self : Span) (w : Wrapper) : bool :=
  match w with
  | WItalic => italic self
  | WBold => bold self
  | WMath => math self
  | WUrlAnchor => truthy (url self) && truthy (anchor self)
  | WUrl => truthy (url self)
  | WAnchor => truthy (anchor self)
  end.

Definition wrap `{Collaborators} (self : Span) (w : Wrapper) (text : str) : str :=
  match w with
  | WItalic => u "<i>" ++ text ++ u "</i>"
  | WBold => u "<b>" ++ text ++ u "</b>"
  | WMath => u "<math display='inline'>" ++ text ++ u "</math>"
  | WUrlAnchor =>
      u "<span id='" ++ fmt (anchor self) ++ u "'><a href='" ++ fmt (url self)
        ++ u "'>" ++ text ++ u "</a></span>"
  | WUrl => u "<a href='" ++ fmt (url self) ++ u "'>" ++ text ++ u "</a>"
  | WAnchor => u "<span id='" ++ fmt (anchor self) ++ u "'>" ++ text ++ u "</span>"
  end.

(** The first wrapper of [priority] whose condition holds, if any. *)
Definition first_matching `{Collaborators} (self : Span) : option Wrapper :=
  List.find (applies self) priority.

Definition render_by_priority `{Collaborators} (self : Span) : str :=
  if ignore_for_output self then []
  else
    match first_matching self with
    | Some w => wrap self w (prepared_text self)
    | None => prepared_text self
    end.

(** ** Calls of [get_image] *)

(** A call [provider.get_image(...)]: the positional arguments after
    [self], and the keyword arguments in the order they are written. *)
Abbreviation Call := (list Z * list (string * Z))%type.

(** Binding the arguments of a call to [(idx, dpi)]; [None] stands for
    the [TypeError] of a call that does not fit the signature. *)
Definition bind_arguments (call : Call) : option (Z * Z) :=
  match call with
  | ([idx; dpi], []) => Some (idx, dpi)
  | ([idx], [(name, dpi)]) =>
      if String.eqb name "dpi" then Some (idx, dpi) else None
  | ([], [(name1, v1); (name2, v2)]) =>
      if String.eqb name1 "idx" && String.eqb name2 "dpi" then Some (v1, v2)
      else if String.eqb name1 "dpi" && String.eqb name2 "idx" then Some (v2, v1)
      else None
  | _ => None
  end.

(** ** The provider ([PdfProvider]) *)

Section Provider.
Context `{Collaborators}.

(** [PdfPageProviderLine] *)
Definition PdfPageProviderLine : Type := list Line * list (list Span).

(** The innermost loop of [setup]: the spans kept for one line. *)
Definition build_spans (page_id : Z) (raw_spans : list RawSpan) : list Span :=
  foldl (fun spans span =>
           if bool_decide (strip (rs_text span) = []) then spans
           else
             let font_formats :=
               classify (rf_flags (rs_font span)) (rf_name (rs_font span)) in
             spans ++
               [ {| polygon := from_bbox (rs_bbox span);
                    page_id := page_id;
                    ignore_for_output := false;
                    text := strip (rs_text span);
                    font := rf_name (rs_font span);
                    font_weight := rf_weight (rs_font span);
                    font_size := rf_size (rs_font span);
                    minimum_position := rs_char_start_idx span;
                    maximum_position := rs_char_end_idx span;
                    formats := elements font_formats;
                    url := None;
                    anchor := None |} ])
        [] raw_spans.

(** The body of [for line in block["lines"]]. *)
Definition add_line (page_id : Z) (acc : PdfPageProviderLine) (line : RawLine)
    : PdfPageProviderLine :=
  let '(lines, line_spans) := acc in
  let spans := build_spans page_id (rl_spans line) in
  (lines ++ [ {| line_polygon := from_bbox (rl_bbox line);
                 line_page_id := page_id |} ],
   line_spans ++ [spans]).

(** The body of [for page in page_char_blocks] up to the quality gate. *)
Definition build_page (page : RawPage) : PdfPageProviderLine :=
  let page_id := rp_page page in
  foldl (fun acc block => foldl (add_line page_id) acc (rb_lines block))
        ([], []) (rp_blocks page).

Definition check_line_spans (line_spans_list : list (list Span)) : bool :=
  if (length (concat line_spans_list) =? 0)%nat then false
  else
    let text :=
      foldl (fun txt line_spans =>
               let txt :=
                 foldl (fun txt span => txt ++ [SPACE] ++ text span)
                       txt line_spans in
               txt ++ [LF])
            [] line_spans_list in
    if (length (strip text) =? 0)%nat then false
    else if detect_bad_ocr text then false
    else true.

(** One iteration of the loop over [page_char_blocks]. *)
Definition add_page (page_lines : gmap Z PdfPageProviderLine) (page : RawPage)
    : gmap Z PdfPageProviderLine :=
  let '(lines, line_spans) := build_page page in
  if check_line_spans line_spans
  then <[ rp_page page := (lines, line_spans) ]> page_lines
  else page_lines.

Record PdfProvider := mkPdfProvider {
  filepath : str;
  page_range : option (list Z);
  pdftext_workers : Z;
  flatten_pdf : bool;
  page_lines : gmap Z PdfPageProviderLine;
  doc : PdfDocument;
}.

(** [__init__] followed by [setup].  The configuration sets
    [page_range], [pdftext_workers] and [flatten_pdf]; [page_lines]
    starts empty.  [None] stands for an exception raised by the PDF
    engine or by the extractor. *)
Definition setup (filepath : str) (page_range : option (list Z))
    (pdftext_workers : Z) (flatten_pdf : bool) : option PdfProvider :=
  doc ← pdfium_open filepath;
  page_char_blocks ←
    dictionary_output filepath page_range false pdftext_workers flatten_pdf;
  Some {| filepath := filepath;
          page_range := page_range;
          pdftext_workers := pdftext_workers;
          flatten_pdf := flatten_pdf;
          page_lines := foldl add_page ∅ page_char_blocks;
          doc := doc |}.

(** [__len__], the provider's page count. *)
Definition page_count (self : PdfProvider) : Z := doc_len (doc self).

(** [get_page_lines]: a missing key raises [KeyError]. *)
Definition get_page_lines (self : PdfProvider) (idx : Z) : option PdfPageProviderLine :=
  page_lines self !! idx.

(** *** [get_image] under [functools.lru_cache(maxsize=None)]

    [lru_cache] builds the key of a call from the arguments as they are
    written, positional and keyword, before they are bound to [idx] and
    [dpi]: two calls that bind the same values in different forms have
    different keys and separate entries.  The calls of one provider are
    modelled, in sequence; [self] is the same in all their keys. *)

(** The cache of [get_image] for one provider: the stored results and
    the hit and miss counters of [lru_cache]; and, beside it, the record
    of the runs of the body of [get_image], each with the page index
    and the dpi it was run on. *)
Record ImageCache := mkImageCache {
  cache : gmap Call Image;
  hits : nat;
  misses : nat;
  body_runs : list (Z * Z);
}.

Definition empty_cache : ImageCache :=
  {| cache := ∅; hits := O; misses := O; body_runs := [] |}.

(** What the body of [get_image] returns, [None] when it raises. *)
Definition get_image_uncached (self : PdfProvider) (idx dpi : Z) : option Image :=
  rasterize (doc self) idx dpi.

(** A run of the body of [get_image], lines 141 to 144: it is added to
    the record of the runs, and returns the image or raises. *)
Definition get_image_body (self : PdfProvider) (idx dpi : Z)
    (runs : list (Z * Z)) : option Image * list (Z * Z) :=
  (get_image_uncached self idx dpi, runs ++ [(idx, dpi)]).

(** The decorated method.  A hit returns the stored image.  A miss
    calls the method with the arguments of the call: it raises if they
    do not bind; otherwise the body runs, and its result is stored
    under the key of the call unless it raised. *)
Definition get_image (self : PdfProvider) (call : Call) (st : ImageCache)
    : option Image * ImageCache :=
  match cache st !! call with
  | Some image =>
      (Some image,
       {| cache := cache st; hits := S (hits st); misses := misses st;
          body_runs := body_runs st |})
  | None =>
      match bind_arguments call with
      | None =>
          (None,
           {| cache := cache st; hits := hits st; misses := S (misses st);
              body_runs := body_runs st |})
      | Some (idx, dpi) =>
          let '(result, runs) := get_image_body self idx dpi (body_runs st) in
          match result with
          | Some image =>
              (Some image,
               {| cache := <[ call := image ]> (cache st);
                  hits := hits st; misses := S (misses st);
                  body_runs := runs |})
          | None =>
              (None,
               {| cache := cache st; hits := hits st; misses := S (misses st);
                  body_runs := runs |})
          end
      end
  end.

(** A sequence of [get_image] calls on one provider, with its results. *)
Fixpoint get_images (self : PdfProvider) (calls : list Call) (st : ImageCache)
    : list (option Image) * ImageCache :=
  match calls with
  | [] => ([], st)
  | call :: rest =>
      let '(r, st') := get_image self call st in
      let '(rs, st'') := get_images self rest st' in
      (r :: rs, st'')
  end.

(** What a call returns when nothing is cached: the [TypeError] of its
    arguments, or what the body returns on the values they bind. *)
Definition uncached_result (self : PdfProvider) (call : Call) : option Image :=
  match bind_arguments call with
  | Some (idx, dpi) => get_image_uncached self idx dpi
  | None => None
  end.

(** How many times the body ran on a page index and a dpi. *)
Definition times_rasterized (v : Z * Z) (st : ImageCache) : nat :=
  length (filter (fun run => run = v) (body_runs st)).

(** The calls of a sequence that bind a page index and a dpi. *)
Definition calls_for (v : Z * Z) (calls : list Call) : list Call :=
  filter (fun call => bind_arguments call = Some v) calls.

(** The distinct forms in which a sequence of calls asks for a page
    index and a dpi. *)
Definition call_forms (v : Z * Z) (calls : list Call) : gset Call :=
  list_to_set (calls_for v calls).

(** The statement that the body runs at most once for each page index
    and dpi, whatever the calls. *)
Definition rasterized_once_per_pair (self : PdfProvider) : Prop :=
  forall (calls : list Call) (v : Z * Z),
    (times_rasterized v (get_images self calls empty_cache).2 <= 1)%nat.

(** Every raw span of the page is empty once stripped. *)
Definition blank_span (span : RawSpan) : Prop := strip (rs_text span) = [].

Definition blank_page (page : RawPage) : Prop :=
  Forall (fun block =>
            Forall (fun line => Forall blank_span (rl_spans line)) (rb_lines block))
         (rp_blocks page).

(** What holds of the cache and of the record of the runs once the
    calls [done] have been made from the empty cache: a stored image
    was returned by the body for a call of [done]; a call of [done]
    whose body returns an image is stored; and the body ran, on each
    page index and dpi, once per form of call if it returns an image,
    and once per call if it raises. *)
Definition cache_inv (self : PdfProvider) (done : list Call) (st : ImageCache)
    : Prop :=
  (forall call image,
      cache st !! call = Some image ->
      call ∈ done /\ uncached_result self call = Some image)
  /\ (forall call,
        call ∈ done -> is_Some (uncached_result self call) ->
        is_Some (cache st !! call))
  /\ (forall v : Z * Z,
        times_rasterized v st
        = match get_image_uncached self v.1 v.2 with
          | Some _ => size (call_forms v done)
          | None => length (calls_for v done)
          end).

End Provider.

(** ** A small instance of the collaborators, for running the model

    A document is its number of pages; an image is the pair it was
    rendered from; the extractor returns the pages it is asked for and
    fails on an empty file name.  Page 1 reads [Hello]; every other page
    holds one span of whitespace. *)

Definition demo_page (i : Z) : RawPage :=
         {| rp_page := i;
            rp_blocks :=
              [ {| rb_lines :=
                     [ {| rl_spans :=
                            [ {| rs_bbox := [];
                                 rs_text :=
                                   if bool_decide (i = 1) then u "Hello"
                                   else [SPACE; LF];
                                 rs_font := {| rf_name := u "Times"; rf_flags := 34;
                                               rf_weight := 400%float;
                                               rf_size := 10%float |};
                                 rs_char_start_idx := 0;
                                 rs_char_end_idx := 2 |} ];
                          rl_bbox := [] |} ] |} ] |}.

Definition demo_pages (page_range : option (list Z)) : list RawPage :=
  map demo_page (default [0; 1; 2] page_range).

#[export] Instance demo : Collaborators := {|
  unicode_lower := fun s => s;
  detect_bad_ocr := fun _ => false;
  PolygonBox := list float;
  from_bbox := fun b => b;
  PdfDocument := Z;
  pdfium_open := fun path => match path with [] => None | _ => Some 3 end;
  doc_len := fun d => d;
  dictionary_output := fun path page_range _ _ _ =>
    match path with [] => None | _ => Some (demo_pages page_range) end;
  Image := Z * Z;
  rasterize := fun d idx dpi =>
    if bool_decide (0 <= idx < d) then Some (idx, dpi) else None;
|}.

(** The raw span of page 1 of the small instance. *)
Definition demo_hello : RawSpan :=
  {| rs_bbox := [];
     rs_text := u "Hello";
     rs_font := {| rf_name := u "Times"; rf_flags := 34;
                   rf_weight := 400%float; rf_size := 10%float |};
     rs_char_start_idx := 0;
     rs_char_end_idx := 2 |}.

(** The provider that [setup] returns on the small instance for the
    whole document. *)
Definition demo_provider : PdfProvider :=
  {| filepath := u "f.pdf";
     page_range := None;
     pdftext_workers := 4;
     flatten_pdf := true;
     page_lines := foldl add_page ∅ (demo_pages None);
     doc := 3 |}.

(** ** Flag words, for the statements about the classifier *)

(** The word with the bit of every entry of [l] that [pick] selects. *)
Fixpoint mask_where (pick : Z * string -> bool) (l : list (Z * string)) : Z :=
  match l with
  | [] => 0
  | e :: r =>
      Z.lor (if pick e then Z.shiftl 1 (e.1 - 1) else 0) (mask_where pick r)
  end.

(** The word with exactly the bits of the listed flag names. *)
Definition mask_of (names : list string) : Z :=
  mask_where (fun e => bool_decide (e.2 ∈ names)) flag_map.

(** The ten bits that [font_flags_to_format] tests. *)
Definition named_mask : Z := mask_where (fun _ => true) flag_map.

(** Every word made of bits of [l]. *)
Fixpoint all_masks (l : list (Z * string)) : list Z :=
  match l with
  | [] => [0]
  | e :: r => all_masks r ++ map (Z.lor (Z.shiftl 1 (e.1 - 1))) (all_masks r)
  end.

(** The flag names that add [plain] in the last branch of the table. *)
Definition plain_indicators : list string :=
  [ "FixedPitch"; "Serif"; "Script"; "Nonsymbolic"; "AllCap"; "SmallCap";
    "UseExternAttr" ]%string.

(** ** Character classes, for the statements about rendering *)

(** [html.escape] on one character. *)
Definition escape_char (c : N) : str :=
  if (c =? 38)%N then u "&amp;"
  else if (c =? 60)%N then u "&lt;"
  else if (c =? 62)%N then u "&gt;"
  else if (c =? 34)%N then u "&quot;"
  else if (c =? 39)%N then u "&#x27;"
  else [c].

(** The characters that delimit markup: [<], [>] and the two quotes. *)
Definition markup_special (c : N) : bool :=
  ((c =? 60) || (c =? 62) || (c =? 34) || (c =? 39))%N.

(** The characters that no step of [assemble_html] touches: anything
    but a newline, a carriage return, an ampersand, a markup delimiter
    or a non-breaking space. *)
Definition ordinary (c : N) : bool :=
  negb (is_newline c || (c =? 38)%N || markup_special c || (c =? NBSP)%N).

(** ** Views of a page record, for the statements about [setup] *)

Section PageViews.
Context `{Collaborators}.

(** The [Span] that [setup] builds from a raw span it keeps. *)
Definition make_span (page_id : Z) (span : RawSpan) : Span :=
  {| polygon := from_bbox (rs_bbox span);
     page_id := page_id;
     ignore_for_output := false;
     text := strip (rs_text span);
     font := rf_name (rs_font span);
     font_weight := rf_weight (rs_font span);
     font_size := rf_size (rs_font span);
     minimum_position := rs_char_start_idx span;
     maximum_position := rs_char_end_idx span;
     formats :=
       elements (classify (rf_flags (rs_font span)) (rf_name (rs_font span)));
     url := None;
     anchor := None |}.

(** The [Line] that [setup] builds from a raw line. *)
Definition make_line (page_id : Z) (line : RawLine) : Line :=
  {| line_polygon := from_bbox (rl_bbox line); line_page_id := page_id |}.

(** [setup] keeps a raw span when its text is not empty once stripped. *)
Definition kept (span : RawSpan) : bool :=
  negb (bool_decide (strip (rs_text span) = [])).

(** The raw lines of a page, block after block. *)
Definition raw_lines (page : RawPage) : list RawLine :=
  flat_map rb_lines (rp_blocks page).

(** The [text] that [check_line_spans] assembles. *)
Definition line_spans_text (line_spans_list : list (list Span)) : str :=
  foldl (fun txt line_spans =>
           let txt :=
             foldl (fun txt span => txt ++ [SPACE] ++ text span)
                   txt line_spans in
           txt ++ [LF])
        [] line_spans_list.

(** A span whose text has a character that is not whitespace. *)
Definition visible (span : Span) : bool :=
  negb (forallb isspace (text span)).

End PageViews.

(** ** Runs of newlines, for the statements about [cleanup_text] *)

(** [nl_ws_run n s]: [s] is [n] consecutive matches of [\n\s], a newline
    followed by exactly one whitespace character. *)
Inductive nl_ws_run : nat -> str -> Prop :=
  | nl_ws_run_O : nl_ws_run O []
  | nl_ws_run_S (n : nat) (c : N) (r : str) :
      isspace c = true -> nl_ws_run n r -> nl_ws_run (S n) (LF :: c :: r).

(** [nl_opt_ws_run n s]: [s] is [n] consecutive occurrences of a newline
    optionally followed by a whitespace character, the unit named by
    the specification. *)
Inductive nl_opt_ws_run : nat -> str -> Prop :=
  | nl_opt_ws_run_O : nl_opt_ws_run O []
  | nl_opt_ws_run_bare (n : nat) (r : str) :
      nl_opt_ws_run n r -> nl_opt_ws_run (S n) (LF :: r)
  | nl_opt_ws_run_ws (n : nat) (c : N) (r : str) :
      isspace c = true -> nl_opt_ws_run n r -> nl_opt_ws_run (S n) (LF :: c :: r).

(** [s] ends with a newline, or with a newline followed by a whitespace
    character: a match of [\n\s] may reach or straddle its end. *)
Definition ends_in_unit (s : str) : bool :=
  match rev s with
  | [] => false
  | c :: before =>
      (c =? LF)%N
      || match before with
         | [] => false
         | l :: _ => (l =? LF)%N && isspace c
         end
  end.

(** [text.replace('\xa0', ' ')] on one character. *)
Definition nbsp_to_space (c : N) : N := if (c =? NBSP)%N then SPACE else c.

(** The collapse as the specification words it, for a run that stands
    between two stretches of text free of newlines and whitespace: the
    run of three or more optional-whitespace units becomes two
    newlines. *)
Definition collapses_optional_runs (f : str -> str) : Prop :=
  forall (pre run post : str) (n : nat),
    (3 <= n)%nat ->
    nl_opt_ws_run n run ->
    forallb (fun c => negb (isspace c)) pre = true ->
    forallb (fun c => negb (isspace c)) post = true ->
    f (pre ++ run ++ post) = pre ++ [LF; LF] ++ post.

(** * Properties *)

(** ** The classifier *)

Example classify_all_bits :
  classify (H := demo) (-1) (u "Times-BoldItalic")
  = {[ "italic"; "bold"; "plain" ]}%string.
Proof. vm_compute. reflexivity. Qed.

Example classify_serif_by_name :
  classify (H := demo) 34 (u "NimbusRomNo9L-MediItal")
  = {[ "plain"; "italic" ]}%string.
Proof. vm_compute. reflexivity. Qed.

Lemma flag_set_testbit (flags bit_position : Z) :
  1 <= bit_position ->
  flag_set flags bit_position = Z.testbit flags (bit_position - 1).
Proof.
  intros Hpos. unfold flag_set.
  rewrite Z.shiftl_1_l.
  destruct (Z.testbit flags (bit_position - 1)) eqn:Hbit.
  - apply negb_true_iff, Z.eqb_neq. intros Hzero.
    assert (Hb : Z.testbit (Z.land flags (2 ^ (bit_position - 1))) (bit_position - 1) = true).
    { rewrite Z.land_spec, Hbit, Z.pow2_bits_true by lia. reflexivity. }
    rewrite Hzero, Z.bits_0 in Hb. discriminate.
  - apply negb_false_iff, Z.eqb_eq, Z.bits_inj'. intros n Hn.
    rewrite Z.land_spec, Z.bits_0.
    destruct (Z.eq_dec n (bit_position - 1)) as [->|Hne].
    + rewrite Hbit. reflexivity.
    + rewrite Z.pow2_bits_false by lia. apply andb_false_r.
Qed.

(** The bit tests of [collect_flags], one per entry of [flag_map]. *)
Lemma collect_flags_unfold (flags : Z) :
  collect_flags flags =
  foldl (fun set_flags '(bit_position, flag_name) =>
           if Z.testbit flags (bit_position - 1)
           then set_flags ∪ {[ flag_name ]} else set_flags)
        ∅ flag_map.
Proof.
  unfold collect_flags, flag_map. cbn [foldl].
  rewrite !flag_set_testbit by lia. reflexivity.
Qed.

Lemma named_bits_fold (flags : Z) (names : list string) (l : list (Z * string)) :
  forallb (fun '(bit_position, flag_name) =>
             eqb (Z.testbit flags (bit_position - 1))
                 (bool_decide (flag_name ∈ names))) l = true ->
  forall acc : gset string,
    foldl (fun set_flags '(bit_position, flag_name) =>
             if Z.testbit flags (bit_position - 1)
             then set_flags ∪ {[ flag_name ]} else set_flags) acc l =
    foldl (fun set_flags '(_, flag_name) =>
             if bool_decide (flag_name ∈ names)
             then set_flags ∪ {[ flag_name ]} else set_flags) acc l.
Proof.
  induction l as [|[bp nm] l IH]; intros Hall acc; [reflexivity|].
  cbn [forallb] in Hall. apply andb_true_iff in Hall as [Hhd Htl].
  apply eqb_prop in Hhd. cbn [foldl]. rewrite Hhd. apply IH, Htl.
Qed.

(** Under [named_bits_are], the loop of [font_flags_to_format] collects
    exactly the listed names that occur in [flag_map]. *)
Lemma named_bits_collect (flags : Z) (names : list string) :
  named_bits_are flags names = true ->
  collect_flags flags =
  foldl (fun set_flags '(_, flag_name) =>
           if bool_decide (flag_name ∈ names)
           then set_flags ∪ {[ flag_name ]} else set_flags) ∅ flag_map.
Proof.
  intros Hbits. rewrite collect_flags_unfold.
  apply named_bits_fold, Hbits.
Qed.

Lemma font_flags_symbolic_italic (flags : Z) :
  named_bits_are flags ["Symbolic"; "Italic"]%string = true ->
  font_flags_to_format flags = {[ "math"%string ]}.
Proof.
  intros Hbits. unfold font_flags_to_format, flag_names.
  rewrite (named_bits_collect _ _ Hbits). vm_compute. reflexivity.
Qed.

Lemma font_flags_symbolic_italic_extern (flags : Z) :
  named_bits_are flags ["Symbolic"; "Italic"; "UseExternAttr"]%string = true ->
  font_flags_to_format flags = {[ "math"%string ]}.
Proof.
  intros Hbits. unfold font_flags_to_format, flag_names.
  rewrite (named_bits_collect _ _ Hbits). vm_compute. reflexivity.
Qed.

Lemma font_flags_symbolic (flags : Z) :
  named_bits_are flags ["Symbolic"]%string = true ->
  font_flags_to_format flags = ∅.
Proof.
  intros Hbits. unfold font_flags_to_format, flag_names.
  rewrite (named_bits_collect _ _ Hbits). vm_compute. reflexivity.
Qed.

Lemma font_names_plain `{Collaborators} (font_name : str) :
  contains (u "bold") (lower font_name) = false ->
  contains (u "ital") (lower font_name) = false ->
  font_names_to_format font_name = ∅.
Proof.
  intros Hbold Hital. unfold font_names_to_format.
  rewrite Hbold, Hital. reflexivity.
Qed.

(** C2.  A font whose flag bits, at the named positions, are exactly
    Symbolic and Italic, or exactly Symbolic, Italic and UseExternAttr,
    and whose lower-cased name contains neither [bold] nor [ital], is
    classified as exactly [{math}]. *)
Theorem classify_symbolic_italic_is_math `{Collaborators}
    (flags : Z) (font_name : str) :
  named_bits_are flags ["Symbolic"; "Italic"]%string = true
  \/ named_bits_are flags ["Symbolic"; "Italic"; "UseExternAttr"]%string = true ->
  contains (u "bold") (lower font_name) = false ->
  contains (u "ital") (lower font_name) = false ->
  classify flags font_name = {[ "math"%string ]}.
Proof.
  intros Hbits Hbold Hital. unfold classify.
  rewrite (font_names_plain _ Hbold Hital).
  destruct Hbits as [Hbits|Hbits].
  - rewrite (font_flags_symbolic_italic _ Hbits). set_solver.
  - rewrite (font_flags_symbolic_italic_extern _ Hbits). set_solver.
Qed.

Lemma classify_symbolic_italic_is_math_witness :
  classify (H := demo) 68 (u "Times-Roman") = {[ "math"%string ]}
  /\ classify (H := demo) 524356 (u "CMSY10") = {[ "math"%string ]}.
Proof.
  split.
  - apply classify_symbolic_italic_is_math; [left|..]; reflexivity.
  - apply classify_symbolic_italic_is_math; [right|..]; reflexivity.
Defined.

(** The flag-name set is never empty: [Plain] is the default. *)
Lemma flag_names_nonempty (flags : Z) : flag_names flags <> ∅.
Proof.
  unfold flag_names. case_bool_decide as Hempty; [|exact Hempty].
  rewrite Hempty. set_solver.
Qed.

Lemma font_flags_to_format_range (flags : Z) :
  font_flags_to_format flags ⊆ {[ "plain"; "math"; "bold"; "italic" ]}%string.
Proof.
  unfold font_flags_to_format.
  repeat match goal with
         | |- context [if ?b then _ else _] => destruct b
         end; set_solver.
Qed.

Lemma font_names_to_format_range `{Collaborators} (font_name : str) :
  font_names_to_format font_name ⊆ {[ "bold"; "italic" ]}%string.
Proof.
  unfold font_names_to_format.
  repeat match goal with
         | |- context [if ?b then _ else _] => destruct b
         end; set_solver.
Qed.

(** C6.  The classifier is a total function of the flags and the font
    name: every input has a result.  On flags [0] and the empty name the
    result is exactly [{plain}]. *)
Theorem classify_total `{Collaborators} :
  (forall (flags : Z) (font_name : str),
      exists formats : gset string, classify flags font_name = formats)
  /\ classify 0 [] = {[ "plain"%string ]}.
Proof.
  split.
  - intros flags font_name. eexists. reflexivity.
  - unfold classify, font_names_to_format, lower. cbn [isascii forallb map].
    vm_compute. reflexivity.
Qed.

(** C7.  A font whose only named flag bit is Symbolic, and whose
    lower-cased name contains neither [bold] nor [ital], is classified
    with the empty set: no [plain] default is added. *)
Theorem classify_symbolic_only_is_empty `{Collaborators}
    (flags : Z) (font_name : str) :
  named_bits_are flags ["Symbolic"]%string = true ->
  contains (u "bold") (lower font_name) = false ->
  contains (u "ital") (lower font_name) = false ->
  classify flags font_name = ∅.
Proof.
  intros Hbits Hbold Hital. unfold classify.
  rewrite (font_names_plain _ Hbold Hital), (font_flags_symbolic _ Hbits).
  set_solver.
Qed.

Lemma classify_symbolic_only_is_empty_witness :
  classify (H := demo) 4 (u "Symbol") = ∅.
Proof.
  apply classify_symbolic_only_is_empty; reflexivity.
Defined.

(** The loop only collects names of [flag_map]. *)
Lemma foldl_flags_subset (flags : Z) (l : list (Z * string)) (acc : gset string) :
  foldl (fun set_flags '(bit_position, flag_name) =>
           if flag_set flags bit_position
           then set_flags ∪ {[ flag_name ]} else set_flags) acc l
  ⊆ acc ∪ list_to_set (l.*2).
Proof.
  revert acc.
  induction l as [|[bp nm] l IH]; intros acc;
    cbn [foldl fmap list_fmap list_to_set]; [set_solver|].
  etrans; [apply IH|]. destruct (flag_set flags bp); set_solver.
Qed.

(** [H] equates a set that visibly holds [tag] with the empty set. *)
Ltac holds_tag H tag :=
  exfalso; revert H;
  repeat match goal with
         | |- context [if ?b then _ else _] => destruct b
         end;
  intros H;
  apply (f_equal (fun s : gset string => bool_decide (tag ∈ s))) in H;
  vm_compute in H; discriminate H.

(** Conversely, Symbolic alone is the only flag-name set that the
    decision table maps to the empty set. *)
Lemma font_flags_empty_only_symbolic (flags : Z) :
  font_flags_to_format flags = ∅ -> flag_names flags = {[ "Symbolic"%string ]}.
Proof.
  intros Hempty.
  pose proof (foldl_flags_subset flags flag_map ∅) as Hsub.
  change (foldl _ ∅ flag_map) with (collect_flags flags) in Hsub.
  unfold font_flags_to_format, nonempty, flag_names in Hempty.
  unfold flag_names.
  remember (collect_flags flags) as c eqn:Hc. clear Hc.
  cbn [flag_map fmap list_fmap list_to_set snd] in Hsub.
  destruct (bool_decide_reflect (c = ∅)) as [Hc|Hne].
  { rewrite Hc, (left_id_L ∅ (∪)) in Hempty. vm_compute in Hempty.
    discriminate. }
  destruct (_ || _) in Hempty; [holds_tag Hempty "math"%string|].
  destruct (bool_decide _) in Hempty; [holds_tag Hempty "plain"%string|].
  destruct (bool_decide _) in Hempty; [holds_tag Hempty "plain"%string|].
  destruct (bool_decide_reflect
              (c ∩ {[ "FixedPitch"; "Serif"; "Script"; "Nonsymbolic";
                      "AllCap"; "SmallCap"; "UseExternAttr" ]}%string = ∅))
    as [Hp|_]; cbn [negb] in Hempty; [|holds_tag Hempty "plain"%string].
  destruct (bool_decide_reflect (c ∩ {[ "ForceBold" ]}%string = ∅))
    as [Hb|_]; cbn [negb] in Hempty; [|holds_tag Hempty "bold"%string].
  destruct (bool_decide_reflect (c ∩ {[ "Italic" ]}%string = ∅))
    as [Hi|_]; cbn [negb] in Hempty; [|holds_tag Hempty "italic"%string].
  clear Hempty.
  assert (Honly : forall x, x ∈ c -> x = "Symbolic"%string).
  { intros x Hx. pose proof (Hsub x Hx) as Hall.
    assert (Hout : forall other : gset string, c ∩ other = ∅ -> x ∉ other).
    { intros other Hdisj Hin. apply (not_elem_of_empty (C := gset string) x).
      rewrite <- Hdisj. apply elem_of_intersection. split; assumption. }
    pose proof (Hout _ Hi) as Hni. pose proof (Hout _ Hb) as Hnb.
    pose proof (Hout _ Hp) as Hnp. clear -Hall Hni Hnb Hnp.
    rewrite !elem_of_union, !elem_of_singleton in *.
    rewrite elem_of_empty in Hall. tauto. }
  apply set_eq. intros x. rewrite elem_of_singleton. split; [apply Honly|].
  intros ->. apply set_choose_L in Hne as [y Hy].
  rewrite <- (Honly y Hy). exact Hy.
Qed.

(** C10.  Whatever the flags and the font name, the classifier only
    produces tags among plain, math, bold and italic; the tag chemical
    of the span's format type is never produced. *)
Theorem classify_range `{Collaborators} (flags : Z) (font_name : str) :
  classify flags font_name ⊆ {[ "plain"; "math"; "bold"; "italic" ]}%string
  /\ "chemical"%string ∉ classify flags font_name.
Proof.
  assert (Hsub : classify flags font_name
                 ⊆ {[ "plain"; "math"; "bold"; "italic" ]}%string).
  { unfold classify.
    pose proof (font_flags_to_format_range flags).
    pose proof (font_names_to_format_range font_name).
    set_solver. }
  split; [exact Hsub|].
  intros Hin. apply Hsub in Hin. set_solver.
Qed.

(** ** Rendering *)

Example assemble_html_trailing_newline :
  assemble_html
    {| polygon := @from_bbox demo []; page_id := 0; ignore_for_output := false;
       text := u "foo" ++ [LF]; font := u "Times";
       font_weight := 400%float; font_size := 10%float;
       minimum_position := 0; maximum_position := 4;
       formats := ["plain"]%string; url := None; anchor := None |} tt tt
  = u "foo ".
Proof. reflexivity. Qed.

Example assemble_html_escapes_and_links :
  assemble_html
    {| polygon := @from_bbox demo []; page_id := 0; ignore_for_output := false;
       text := [CR; LF] ++ u "a<b co-" ++ [LF] ++ u "op-" ++ [LF; LF];
       font := u "Times";
       font_weight := 400%float; font_size := 10%float;
       minimum_position := 0; maximum_position := 14;
       formats := ["plain"]%string;
       url := Some (u "#s1"); anchor := Some [] |} tt tt
  = u "<a href='#s1'>a&lt;b coop-</a>".
Proof. reflexivity. Qed.

(** C3.  [assemble_html] applies the first wrapper, in the order italic,
    bold, math, url with anchor, url, anchor, whose condition holds, and
    no other; a span that is both italic and bold gets the italic
    wrapper alone around its prepared text. *)
Theorem assemble_html_one_wrapper `{Collaborators} {A B : Type}
    (self : Span) (child_blocks : A) (parent_structure : B) :
  assemble_html self child_blocks parent_structure = render_by_priority self
  /\ (ignore_for_output self = false -> italic self = true -> bold self = true ->
      assemble_html self child_blocks parent_structure
      = u "<i>" ++ prepared_text self ++ u "</i>").
Proof.
  split.
  - unfold assemble_html, render_by_priority, first_matching, priority.
    destruct (ignore_for_output self); [reflexivity|].
    cbn [List.find applies].
    destruct (italic self); [reflexivity|].
    destruct (bold self); [reflexivity|].
    destruct (math self); [reflexivity|].
    destruct (truthy (url self)), (truthy (anchor self)); reflexivity.
  - intros Hshown Hitalic _. unfold assemble_html.
    rewrite Hshown, Hitalic. reflexivity.
Qed.

Lemma assemble_html_one_wrapper_witness :
  let self :=
    {| polygon := @from_bbox demo []; page_id := 0;
       ignore_for_output := false; text := u "x"; font := u "Times-BoldItalic";
       font_weight := 700%float; font_size := 10%float;
       minimum_position := 0; maximum_position := 1;
       formats := ["italic"; "bold"]%string;
       url := Some (u "http://a"); anchor := Some (u "p1") |} in
  assemble_html self tt tt = u "<i>x</i>".
Proof.
  intros self.
  exact (proj2 (assemble_html_one_wrapper self tt tt) eq_refl eq_refl eq_refl).
Defined.

(** C4.  A span with text [hello-\nworld], no format, no url, no anchor
    and not ignored renders as [helloworld], without a wrapper. *)
Theorem assemble_html_hyphen_newline `{Collaborators} {A B : Type}
    (polygon : PolygonBox) (page_id : Z) (font : str)
    (font_weight font_size : float) (minimum_position maximum_position : Z)
    (child_blocks : A) (parent_structure : B) :
  assemble_html
    {| polygon := polygon; page_id := page_id; ignore_for_output := false;
       text := u "hello-" ++ [LF] ++ u "world"; font := font;
       font_weight := font_weight; font_size := font_size;
       minimum_position := minimum_position;
       maximum_position := maximum_position;
       formats := []; url := None; anchor := None |}
    child_blocks parent_structure
  = u "helloworld".
Proof. reflexivity. Qed.

(** *** [cleanup_text] *)

Lemma sub_go_skip (k : nat) (s : str) : sub_go k s = sub_go O (drop k s).
Proof.
  revert k. induction s as [|c r IH]; intros [|k]; try reflexivity.
  cbn [sub_go drop]. apply IH.
Qed.

Lemma count_units_length (s : str) : (2 * count_units s <= length s)%nat.
Proof.
  induction s as [s IH] using (induction_ltof1 _ (@length N)).
  unfold ltof in IH.
  destruct s as [|a [|b r]]; cbn [count_units length]; try lia.
  destruct ((a =? LF)%N && isspace b); [|lia].
  specialize (IH r). cbn [length] in IH. lia.
Qed.

(** Where three or more units start, the longest run of units is
    replaced by two newlines and the scan resumes after it. *)
Lemma re_sub_newlines_run (s : str) :
  (3 <= count_units s)%nat ->
  re_sub_newlines s = [LF; LF] ++ re_sub_newlines (drop (2 * count_units s) s).
Proof.
  intros Hrun. unfold re_sub_newlines.
  destruct s as [|c r]; [cbn in Hrun; lia|].
  cbn [sub_go]. apply Nat.leb_le in Hrun as Hleb. rewrite Hleb.
  rewrite sub_go_skip. f_equal. f_equal.
  destruct (count_units (c :: r)) as [|n]; [lia|].
  replace (2 * S n)%nat with (S (S (2 * n))) by lia. reflexivity.
Qed.

(** Elsewhere the character is kept and the scan moves on by one. *)
Lemma re_sub_newlines_keep (c : N) (r : str) :
  (count_units (c :: r) < 3)%nat ->
  re_sub_newlines (c :: r) = c :: re_sub_newlines r.
Proof.
  intros Hno. unfold re_sub_newlines. cbn [sub_go].
  apply Nat.leb_gt in Hno. rewrite Hno. reflexivity.
Qed.

Lemma replace_nbsp (s : str) : replace [NBSP] [SPACE] s = map nbsp_to_space s.
Proof.
  unfold replace. induction s as [|c r IH]; [reflexivity|].
  cbn [replace_go startswith length pred map]. unfold nbsp_to_space.
  rewrite N.eqb_sym, andb_true_r.
  destruct (c =? NBSP)%N; cbn [app]; rewrite IH; reflexivity.
Qed.

Lemma cleanup_text_map (s : str) :
  cleanup_text s = map nbsp_to_space (re_sub_newlines s).
Proof. unfold cleanup_text. apply replace_nbsp. Qed.

Lemma nl_ws_run_length (n : nat) (run : str) :
  nl_ws_run n run -> length run = (2 * n)%nat.
Proof. induction 1; cbn [length]; lia. Qed.

Lemma nl_ws_run_count (n : nat) (run post : str) :
  nl_ws_run n run -> count_units (run ++ post) = (n + count_units post)%nat.
Proof.
  induction 1 as [|n c r Hc _ IH]; [reflexivity|].
  cbn [app count_units]. rewrite N.eqb_refl, Hc. cbn [andb plus].
  rewrite IH. reflexivity.
Qed.

Lemma ends_in_unit_tail (a : N) (r : str) :
  ends_in_unit (a :: r) = false -> r <> [] -> ends_in_unit r = false.
Proof.
  unfold ends_in_unit. cbn [rev]. intros Hend Hne.
  destruct (rev r) as [|c [|l t]] eqn:Hrev.
  - apply (f_equal (@rev N)) in Hrev. rewrite rev_involutive in Hrev.
    contradiction.
  - cbn [app] in Hend. apply orb_false_iff in Hend as [-> _]. reflexivity.
  - exact Hend.
Qed.

Lemma ends_in_unit_drop (k : nat) (s : str) :
  ends_in_unit s = false -> ends_in_unit (drop k s) = false.
Proof.
  revert s. induction k as [|k IH]; intros s Hend; [rewrite drop_0; exact Hend|].
  destruct s as [|a r]; [exact Hend|]. cbn [drop].
  destruct r as [|b r']; [destruct k; reflexivity|].
  apply IH. apply (ends_in_unit_tail a); [exact Hend|discriminate].
Qed.

Lemma ends_in_unit_single (a : N) : ends_in_unit [a] = (a =? LF)%N.
Proof. unfold ends_in_unit. cbn. apply orb_false_r. Qed.

Lemma ends_in_unit_pair (a b : N) :
  ends_in_unit [a; b] = ((b =? LF)%N || (a =? LF)%N && isspace b).
Proof. reflexivity. Qed.

(** A text that does not end in a unit has the same units at its head
    whatever follows it. *)
Lemma count_units_app (s rest : str) :
  s <> [] -> ends_in_unit s = false ->
  count_units (s ++ rest) = count_units s.
Proof.
  induction s as [s IH] using (induction_ltof1 _ (@length N)).
  unfold ltof in IH. intros Hne Hend.
  destruct s as [|a [|b r]]; [contradiction| |].
  - rewrite ends_in_unit_single in Hend.
    cbn [app count_units]. destruct rest; [reflexivity|].
    rewrite Hend. reflexivity.
  - cbn [app count_units]. change (r ++ rest) with (app r rest).
    destruct ((a =? LF)%N && isspace b) eqn:Hunit; [|reflexivity].
    destruct r as [|c r'].
    + rewrite ends_in_unit_pair, Hunit, orb_true_r in Hend. discriminate.
    + f_equal. apply IH; [cbn [length]; lia|discriminate|].
      apply (ends_in_unit_drop 2 (a :: b :: c :: r')), Hend.
Qed.

Lemma re_sub_newlines_app (pre rest : str) :
  ends_in_unit pre = false ->
  re_sub_newlines (pre ++ rest) = re_sub_newlines pre ++ re_sub_newlines rest.
Proof.
  induction pre as [pre IH] using (induction_ltof1 _ (@length N)).
  unfold ltof in IH. intros Hend.
  destruct pre as [|c r]; [reflexivity|].
  assert (Hcount : count_units ((c :: r) ++ rest) = count_units (c :: r))
    by (apply count_units_app; [discriminate|exact Hend]).
  destruct (le_lt_dec 3 (count_units (c :: r))) as [Hrun|Hno].
  - rewrite (re_sub_newlines_run (c :: r)) by exact Hrun.
    rewrite re_sub_newlines_run by (rewrite Hcount; exact Hrun).
    rewrite Hcount.
    pose proof (count_units_length (c :: r)) as Hlen.
    rewrite drop_app_le by exact Hlen.
    rewrite IH; [reflexivity| |apply ends_in_unit_drop, Hend].
    rewrite length_drop. cbn [length] in *. lia.
  - rewrite (re_sub_newlines_keep c r) by exact Hno.
    cbn [app]. rewrite re_sub_newlines_keep
      by (change (c :: r ++ rest) with ((c :: r) ++ rest); rewrite Hcount; exact Hno).
    destruct r as [|b r'].
    + reflexivity.
    + cbn [app]. f_equal. apply (IH (b :: r')); [cbn [length]; lia|].
      apply (ends_in_unit_tail c); [exact Hend|discriminate].
Qed.

Lemma cleanup_text_no_nbsp (s : str) : NBSP ∉ cleanup_text s.
Proof.
  rewrite cleanup_text_map. intros Hin.
  apply list_elem_of_fmap in Hin as [c [Hc _]].
  unfold nbsp_to_space in Hc.
  destruct (c =? NBSP)%N eqn:Heq; [discriminate|].
  apply N.eqb_neq in Heq. congruence.
Qed.

(** C5, as the code has it.  A unit is a newline followed by exactly one
    whitespace character.  A run of three or more units that is not
    continued by a further unit, and that follows a text not ending in a
    newline or in a unit, is replaced by exactly two newlines, the text
    before and after being cleaned on their own; every non-breaking
    space that the collapse leaves is replaced by a space, so that none
    is left in the result. *)
Theorem cleanup_text_collapses_unit_runs (pre run post : str) (n : nat) :
  (3 <= n)%nat ->
  nl_ws_run n run ->
  ends_in_unit pre = false ->
  count_units post = O ->
  cleanup_text (pre ++ run ++ post)
  = cleanup_text pre ++ [LF; LF] ++ cleanup_text post
  /\ cleanup_text (pre ++ run ++ post)
     = map nbsp_to_space (re_sub_newlines (pre ++ run ++ post))
  /\ NBSP ∉ cleanup_text (pre ++ run ++ post).
Proof.
  intros Hn Hrun Hpre Hpost.
  split; [|split; [apply cleanup_text_map|apply cleanup_text_no_nbsp]].
  rewrite !cleanup_text_map, re_sub_newlines_app by exact Hpre.
  pose proof (nl_ws_run_count n run post Hrun) as Hcount.
  rewrite Hpost, Nat.add_0_r in Hcount.
  rewrite (re_sub_newlines_run (run ++ post)) by (rewrite Hcount; exact Hn).
  rewrite Hcount, drop_app_length' by (symmetry; apply nl_ws_run_length, Hrun).
  rewrite !map_app. reflexivity.
Qed.

Lemma cleanup_text_collapses_unit_runs_witness :
  cleanup_text (u "a b" ++ [LF; SPACE; LF; NBSP; LF; LF] ++ [NBSP; 99%N])
  = u "a b" ++ [LF; LF] ++ u " c"
  /\ cleanup_text (u "a b" ++ [LF; SPACE; LF; NBSP; LF; LF] ++ [NBSP; 99%N])
     = map nbsp_to_space
         (re_sub_newlines (u "a b" ++ [LF; SPACE; LF; NBSP; LF; LF] ++ [NBSP; 99%N]))
  /\ NBSP ∉ cleanup_text (u "a b" ++ [LF; SPACE; LF; NBSP; LF; LF] ++ [NBSP; 99%N]).
Proof.
  apply (cleanup_text_collapses_unit_runs (u "a b") _ [NBSP; 99%N] 3).
  - lia.
  - repeat (apply nl_ws_run_S; [reflexivity|]). apply nl_ws_run_O.
  - reflexivity.
  - reflexivity.
Defined.

(** The text that [assemble_html] wraps went through [cleanup_text]. *)
Lemma prepared_text_no_nbsp `{Collaborators} (self : Span) :
  NBSP ∉ prepared_text self.
Proof.
  unfold prepared_text. destruct (drop_trailing _ _) as [rtext replaced].
  apply cleanup_text_no_nbsp.
Qed.

(** C5, as the specification words it, fails: three newlines in a row
    between two words are three occurrences of a newline optionally
    followed by whitespace, and they are left as they are, by
    [cleanup_text] and by the rendering of a span. *)
Lemma cleanup_text_keeps_three_newlines :
  cleanup_text (u "a" ++ [LF; LF; LF] ++ u "b") = u "a" ++ [LF; LF; LF] ++ u "b"
  /\ assemble_html
       {| polygon := @from_bbox demo []; page_id := 0;
          ignore_for_output := false;
          text := u "a" ++ [LF; LF; LF] ++ u "b"; font := u "Times";
          font_weight := 400%float; font_size := 10%float;
          minimum_position := 0; maximum_position := 5;
          formats := []; url := None; anchor := None |} tt tt
     = u "a" ++ [LF; LF; LF] ++ u "b"
  /\ ~ collapses_optional_runs cleanup_text.
Proof.
  split; [reflexivity|]. split; [reflexivity|].
  intros Hspec.
  specialize (Hspec (u "a") [LF; LF; LF] (u "b") 3%nat).
  assert (Hrun : nl_opt_ws_run 3 [LF; LF; LF])
    by (repeat apply nl_opt_ws_run_bare; apply nl_opt_ws_run_O).
  specialize (Hspec (le_n 3) Hrun eq_refl eq_refl).
  discriminate Hspec.
Qed.

(** ** The provider *)

Section ProviderFacts.
Context `{Collaborators}.

Lemma build_spans_blank (page_id : Z) (raw_spans : list RawSpan) :
  Forall blank_span raw_spans -> build_spans page_id raw_spans = [].
Proof.
  intros Hall. unfold build_spans.
  match goal with
  | |- foldl ?f [] _ = _ =>
      cut (forall spans, foldl f spans raw_spans = spans);
      [intros Hgen; apply Hgen|]
  end.
  induction Hall as [|span rest Hblank _ IH]; intros spans; [reflexivity|].
  cbn [foldl]. unfold blank_span in Hblank.
  rewrite bool_decide_eq_true_2 by exact Hblank. apply IH.
Qed.

Lemma add_line_blank (page_id : Z) (acc : PdfPageProviderLine) (line : RawLine) :
  Forall blank_span (rl_spans line) ->
  concat (add_line page_id acc line).2 = concat acc.2.
Proof.
  intros Hblank. destruct acc as [lines line_spans]. unfold add_line.
  rewrite (build_spans_blank _ _ Hblank). cbn [snd].
  rewrite concat_app. cbn [concat]. rewrite !app_nil_r. reflexivity.
Qed.

Lemma add_lines_blank (page_id : Z) (lines : list RawLine) :
  Forall (fun line => Forall blank_span (rl_spans line)) lines ->
  forall acc : PdfPageProviderLine,
    concat (foldl (add_line page_id) acc lines).2 = concat acc.2.
Proof.
  induction 1 as [|line rest Hblank _ IH]; intros acc; [reflexivity|].
  cbn [foldl]. rewrite IH. apply add_line_blank, Hblank.
Qed.

(** A blank page yields no span at all. *)
Lemma build_page_blank (page : RawPage) :
  blank_page page -> concat (build_page page).2 = [].
Proof.
  intros Hall. unfold build_page.
  match goal with
  | |- concat (foldl ?f _ _).2 = _ =>
      cut (forall acc : PdfPageProviderLine,
              concat (foldl f acc (rp_blocks page)).2 = concat acc.2);
      [intros Hgen; apply Hgen|]
  end.
  induction Hall as [|block rest Hblank _ IH]; intros acc; [reflexivity|].
  cbn [foldl]. rewrite IH. apply add_lines_blank, Hblank.
Qed.

Lemma check_line_spans_no_span (line_spans_list : list (list Span)) :
  concat line_spans_list = [] -> check_line_spans line_spans_list = false.
Proof. intros Hnone. unfold check_line_spans. rewrite Hnone. reflexivity. Qed.

(** The quality gate drops a blank page: the map is left as it was. *)
Lemma add_page_blank (page_lines : gmap Z PdfPageProviderLine) (page : RawPage) :
  blank_page page -> add_page page_lines page = page_lines.
Proof.
  intros Hblank. unfold add_page.
  pose proof (build_page_blank page Hblank) as Hnone.
  destruct (build_page page) as [lines line_spans]. cbn [snd] in Hnone.
  rewrite (check_line_spans_no_span _ Hnone). reflexivity.
Qed.

(** A page record only ever writes the key of its own page index. *)
Lemma add_page_other (page_lines : gmap Z PdfPageProviderLine) (page : RawPage)
    (idx : Z) :
  rp_page page <> idx -> add_page page_lines page !! idx = page_lines !! idx.
Proof.
  intros Hne. unfold add_page.
  destruct (build_page page) as [lines line_spans].
  destruct (check_line_spans line_spans); [|reflexivity].
  apply lookup_insert_ne, Hne.
Qed.

Lemma add_pages_absent (pages : list RawPage) (idx : Z) :
  (forall page, page ∈ pages -> rp_page page = idx -> blank_page page) ->
  forall page_lines : gmap Z PdfPageProviderLine,
    page_lines !! idx = None ->
    foldl add_page page_lines pages !! idx = None.
Proof.
  induction pages as [|page rest IH]; intros Hblank page_lines Hnone;
    [exact Hnone|].
  cbn [foldl]. apply IH.
  - intros other Hin. apply Hblank. right. exact Hin.
  - destruct (decide (rp_page page = idx)) as [Heq|Hne].
    + rewrite add_page_blank; [exact Hnone|]. apply Hblank; [left|exact Heq].
    + rewrite add_page_other by exact Hne. exact Hnone.
Qed.

(** C1.  After [setup], a page whose every raw span is empty once
    stripped has no key in [page_lines], so that [get_page_lines] has no
    entry for it, empty or not.  The extractor may return several
    records for one page index; the page is blank when all of them
    are. *)
Theorem blank_page_absent (path : str) (range : option (list Z))
    (workers : Z) (flatten : bool) (pages : list RawPage)
    (self : PdfProvider) (page : RawPage) :
  dictionary_output path range false workers flatten = Some pages ->
  setup path range workers flatten = Some self ->
  page ∈ pages ->
  blank_page page ->
  (forall other, other ∈ pages -> rp_page other = rp_page page -> blank_page other) ->
  page_lines self !! rp_page page = None
  /\ get_page_lines self (rp_page page) = None.
Proof.
  intros Hpages Hsetup _ _ Hall. unfold setup in Hsetup.
  destruct (pdfium_open path) as [d|]; [|discriminate].
  cbn in Hsetup. rewrite Hpages in Hsetup. cbn in Hsetup.
  injection Hsetup as <-. unfold get_page_lines. cbn [page_lines].
  split; apply add_pages_absent; try exact Hall; apply lookup_empty.
Qed.

(** When the page indices of the records are pairwise distinct, the
    record of a blank page is the only one to consider. *)
Lemma blank_page_absent_nodup (pages : list RawPage) (page : RawPage) :
  NoDup (rp_page <$> pages) ->
  page ∈ pages ->
  blank_page page ->
  foldl add_page ∅ pages !! rp_page page = None.
Proof.
  intros Hnodup Hin Hblank. apply add_pages_absent; [|apply lookup_empty].
  intros other Hother Heq.
  assert (other = page) as ->; [|exact Hblank].
  apply list_elem_of_lookup in Hin as [i Hi].
  apply list_elem_of_lookup in Hother as [j Hj].
  assert (j = i) as ->; [|congruence].
  eapply NoDup_lookup; [exact Hnodup| |].
  - rewrite list_lookup_fmap, Hj. reflexivity.
  - rewrite list_lookup_fmap, Hi. cbn. f_equal. symmetry. exact Heq.
Qed.

(** C8.  The page count of a provider is the length of the document
    opened from the file: it does not depend on the page range, on the
    pages the extractor returned, or on the pages the quality gate
    kept. *)
Theorem page_count_is_document_length (path : str) (range : option (list Z))
    (workers : Z) (flatten : bool) (d : PdfDocument) (self : PdfProvider) :
  pdfium_open path = Some d ->
  setup path range workers flatten = Some self ->
  page_count self = doc_len d.
Proof.
  intros Hopen Hsetup. unfold setup in Hsetup. rewrite Hopen in Hsetup.
  cbn in Hsetup.
  destruct (dictionary_output path range false workers flatten); [|discriminate].
  cbn in Hsetup. injection Hsetup as <-. reflexivity.
Qed.

End ProviderFacts.

Example setup_demo_keeps_page_1 :
  (fun self => (dom (page_lines self), page_count self))
    <$> setup (H := demo) (u "f.pdf") None 4 true
  = Some ({[ 1 ]}, 3).
Proof. vm_compute. reflexivity. Qed.

Lemma blank_page_absent_witness :
  exists self,
    setup (H := demo) (u "f.pdf") None 4 true = Some self
    /\ page_lines self !! 0 = None
    /\ get_page_lines self 0 = None.
Proof.
  eexists. split; [reflexivity|].
  apply (blank_page_absent (H := demo) (u "f.pdf") None 4 true
           (demo_pages None) _ (demo_page 0)).
  - reflexivity.
  - reflexivity.
  - left.
  - repeat constructor.
  - intros other Hin Heq. cbn in Hin.
    repeat (apply elem_of_cons in Hin as [->|Hin]);
      [repeat constructor|discriminate Heq|discriminate Heq|].
    apply elem_of_nil in Hin. contradiction.
Defined.

Lemma page_count_is_document_length_witness :
  exists self,
    setup (H := demo) (u "f.pdf") (Some [1]) 4 true = Some self
    /\ page_count self = 3.
Proof.
  eexists. split; [reflexivity|].
  apply (page_count_is_document_length (H := demo) (u "f.pdf") (Some [1]) 4 true 3).
  - reflexivity.
  - reflexivity.
Defined.

(** *** The image cache *)

Section ImageCacheFacts.
Context `{Collaborators}.
Variable self : PdfProvider.

Lemma length_filter_snoc {T : Type} (P : T -> Prop) `{!forall x, Decision (P x)}
    (l : list T) (e : T) :
  length (filter P (l ++ [e]))
  = (length (filter P l) + (if decide (P e) then 1 else 0))%nat.
Proof.
  rewrite filter_app, length_app. f_equal.
  rewrite filter_cons, filter_nil. destruct (decide (P e)); reflexivity.
Qed.

Lemma calls_for_snoc (v : Z * Z) (done : list Call) (call : Call) :
  calls_for v (done ++ [call])
  = calls_for v done
    ++ (if decide (bind_arguments call = Some v) then [call] else []).
Proof.
  unfold calls_for. rewrite filter_app, filter_cons, filter_nil. reflexivity.
Qed.

Lemma calls_for_snoc_other (v : Z * Z) (done : list Call) (call : Call) :
  bind_arguments call <> Some v ->
  calls_for v (done ++ [call]) = calls_for v done.
Proof.
  intros Hother. rewrite calls_for_snoc, decide_False by exact Hother.
  apply app_nil_r.
Qed.

Lemma list_to_set_snoc (l : list Call) (call : Call) :
  list_to_set (l ++ [call]) =@{gset Call} list_to_set l ∪ {[ call ]}.
Proof.
  rewrite list_to_set_app_L. cbn [list_to_set].
  rewrite (right_id_L ∅ (∪)). reflexivity.
Qed.

Lemma call_forms_snoc_old (v : Z * Z) (done : list Call) (call : Call) :
  call ∈ done -> call_forms v (done ++ [call]) = call_forms v done.
Proof.
  intros Hdone. unfold call_forms. rewrite calls_for_snoc.
  destruct (decide (bind_arguments call = Some v)) as [Hbind|_];
    [|rewrite app_nil_r; reflexivity].
  rewrite list_to_set_snoc, (comm_L (∪)).
  apply subseteq_union_1_L, singleton_subseteq_l, elem_of_list_to_set.
  apply list_elem_of_filter. split; assumption.
Qed.

Lemma call_forms_snoc_new (v : Z * Z) (done : list Call) (call : Call) :
  bind_arguments call = Some v -> call ∉ done ->
  size (call_forms v (done ++ [call])) = S (size (call_forms v done)).
Proof.
  intros Hbind Hnew. unfold call_forms.
  rewrite calls_for_snoc, decide_True by exact Hbind.
  rewrite list_to_set_snoc, size_union, size_singleton; [lia|].
  apply disjoint_singleton_r. intros Hin.
  apply elem_of_list_to_set, list_elem_of_filter in Hin as [_ Hin]. contradiction.
Qed.

Lemma cache_inv_empty : cache_inv self [] empty_cache.
Proof.
  split; [|split].
  - intros call image Hlookup. cbn in Hlookup.
    rewrite lookup_empty in Hlookup. discriminate.
  - intros call Hin. apply elem_of_nil in Hin. contradiction.
  - intros v. destruct (get_image_uncached self v.1 v.2); reflexivity.
Qed.

(** One call: the result is what the method returns when nothing is
    cached, and the invariant is kept with the call added. *)
Lemma get_image_step (done : list Call) (call : Call) (st : ImageCache) :
  cache_inv self done st ->
  (get_image self call st).1 = uncached_result self call
  /\ cache_inv self (done ++ [call]) (get_image self call st).2.
Proof.
  intros (Hsound & Hcomplete & Hcount). unfold get_image.
  destruct (cache st !! call) as [image|] eqn:Hlookup.
  - destruct (Hsound call image Hlookup) as [Hdone Hres].
    cbn [fst snd]. split; [congruence|]. split; [|split]; cbn [cache].
    + intros c img Hc. destruct (Hsound c img Hc) as [Hin Hr].
      split; [apply elem_of_app; left; exact Hin|exact Hr].
    + intros c Hin Hsome. apply elem_of_app in Hin as [Hin|Hin];
        [apply Hcomplete; assumption|].
      apply list_elem_of_singleton in Hin as ->. eexists. exact Hlookup.
    + intros v. unfold times_rasterized in *. cbn [body_runs].
      rewrite Hcount, call_forms_snoc_old by exact Hdone.
      destruct (get_image_uncached self v.1 v.2) eqn:Hv; [reflexivity|].
      rewrite calls_for_snoc_other; [reflexivity|].
      intros Hbind. unfold uncached_result in Hres. rewrite Hbind in Hres.
      destruct v as [idx dpi]. cbn [fst snd] in Hv. congruence.
  - assert (Hnew : is_Some (uncached_result self call) -> call ∉ done).
    { intros Hsome Hdone. destruct (Hcomplete call Hdone Hsome) as [? ?].
      congruence. }
    destruct (bind_arguments call) as [[idx dpi]|] eqn:Hbind.
    + assert (Hun : uncached_result self call = get_image_uncached self idx dpi)
        by (unfold uncached_result; rewrite Hbind; reflexivity).
      unfold get_image_body.
      destruct (get_image_uncached self idx dpi) as [image|] eqn:Hbody;
        cbn [fst snd]; (split; [congruence|]); (split; [|split]);
        cbn [cache].
      * intros c img Hc. destruct (decide (c = call)) as [->|Hne].
        -- rewrite lookup_insert_eq in Hc. injection Hc as <-.
           split; [apply elem_of_app; right; left|exact Hun].
        -- rewrite lookup_insert_ne in Hc by congruence.
           destruct (Hsound c img Hc) as [Hin Hr].
           split; [apply elem_of_app; left; exact Hin|exact Hr].
      * intros c Hin Hsome. destruct (decide (c = call)) as [->|Hne].
        -- rewrite lookup_insert_eq. eexists. reflexivity.
        -- rewrite lookup_insert_ne by congruence.
           apply elem_of_app in Hin as [Hin|Hin];
             [apply Hcomplete; assumption|].
           apply list_elem_of_singleton in Hin. contradiction.
      * intros v. unfold times_rasterized in *. cbn [body_runs].
        rewrite length_filter_snoc, Hcount.
        destruct (decide ((idx, dpi) = v)) as [<-|Hne].
        -- cbn [fst snd]. rewrite Hbody.
           rewrite call_forms_snoc_new;
             [lia|exact Hbind|apply Hnew; rewrite Hun; eexists; reflexivity].
        -- unfold call_forms. rewrite calls_for_snoc_other by congruence.
           rewrite Nat.add_0_r. reflexivity.
      * intros c img Hc. destruct (Hsound c img Hc) as [Hin Hr].
        split; [apply elem_of_app; left; exact Hin|exact Hr].
      * intros c Hin Hsome. apply elem_of_app in Hin as [Hin|Hin];
          [apply Hcomplete; assumption|].
        apply list_elem_of_singleton in Hin as ->.
        rewrite Hun in Hsome. destruct Hsome as [? ?]. discriminate.
      * intros v. unfold times_rasterized in *. cbn [body_runs].
        rewrite length_filter_snoc, Hcount.
        destruct (decide ((idx, dpi) = v)) as [<-|Hne].
        -- cbn [fst snd]. rewrite Hbody, calls_for_snoc, length_app.
           rewrite decide_True by exact Hbind. reflexivity.
        -- unfold call_forms. rewrite calls_for_snoc_other by congruence.
           rewrite Nat.add_0_r. reflexivity.
    + assert (Hun : uncached_result self call = None)
        by (unfold uncached_result; rewrite Hbind; reflexivity).
      cbn [fst snd]. split; [congruence|]. split; [|split]; cbn [cache].
      * intros c img Hc. destruct (Hsound c img Hc) as [Hin Hr].
        split; [apply elem_of_app; left; exact Hin|exact Hr].
      * intros c Hin Hsome. apply elem_of_app in Hin as [Hin|Hin];
          [apply Hcomplete; assumption|].
        apply list_elem_of_singleton in Hin as ->.
        rewrite Hun in Hsome. destruct Hsome as [? ?]. discriminate.
      * intros v. unfold times_rasterized in *. cbn [body_runs].
        unfold call_forms. rewrite calls_for_snoc_other by congruence.
        apply Hcount.
Qed.

Lemma get_images_step (calls done : list Call) (st : ImageCache) :
  cache_inv self done st ->
  (get_images self calls st).1 = map (uncached_result self) calls
  /\ cache_inv self (done ++ calls) (get_images self calls st).2.
Proof.
  revert done st. induction calls as [|call rest IH]; intros done st Hinv.
  - rewrite app_nil_r. split; [reflexivity|exact Hinv].
  - cbn [get_images map].
    destruct (get_image_step done call st Hinv) as [Hres Hinv'].
    destruct (get_image self call st) as [r st']. cbn [fst snd] in *.
    destruct (IH (done ++ [call]) st' Hinv') as [Hrest Hinv''].
    destruct (get_images self rest st') as [rs st'']. cbn [fst snd] in *.
    rewrite <- app_assoc in Hinv''. split; [congruence|exact Hinv''].
Qed.

(** C9, as the code has it.  Over any sequence of [get_image] calls on
    a provider, from the empty cache: every call returns what the
    method returns when nothing is cached; the body runs, on a page
    index and a dpi for which it returns an image, exactly once for
    each form of call that asks for them, and, where it raises, once
    for each call; so that it runs at most once for a page index and a
    dpi that are always asked for in the same form. *)
Theorem get_image_memoized_per_call_form (calls : list Call) :
  (get_images self calls empty_cache).1 = map (uncached_result self) calls
  /\ (forall v : Z * Z,
        times_rasterized v (get_images self calls empty_cache).2
        = match get_image_uncached self v.1 v.2 with
          | Some _ => size (call_forms v calls)
          | None => length (calls_for v calls)
          end)
  /\ (forall (v : Z * Z) (form : Call),
        is_Some (get_image_uncached self v.1 v.2) ->
        (forall call, call ∈ calls -> bind_arguments call = Some v -> call = form) ->
        (times_rasterized v (get_images self calls empty_cache).2 <= 1)%nat).
Proof.
  destruct (get_images_step calls [] empty_cache cache_inv_empty)
    as [Hres (_ & _ & Hcount)].
  cbn [app] in Hcount. split; [exact Hres|]. split; [exact Hcount|].
  intros v form [image Himage] Hform. rewrite Hcount, Himage.
  assert (Hsub : call_forms v calls ⊆ {[ form ]}).
  { intros call Hin. apply elem_of_list_to_set, list_elem_of_filter in Hin as [Hbind Hin].
    apply elem_of_singleton. apply Hform; assumption. }
  apply subseteq_size in Hsub. rewrite size_singleton in Hsub. exact Hsub.
Qed.

End ImageCacheFacts.

Lemma get_image_memoized_per_call_form_witness :
  (get_images demo_provider [([0; 72], []); ([1; 72], []); ([0; 72], [])]
     empty_cache).1
  = [Some (0, 72); Some (1, 72); Some (0, 72)]
  /\ (times_rasterized (0%Z, 72%Z)
        (get_images demo_provider
           [([0%Z; 72%Z], []); ([1%Z; 72%Z], []); ([0%Z; 72%Z], [])]
           empty_cache).2 <= 1)%nat.
Proof.
  destruct (get_image_memoized_per_call_form (H := demo) demo_provider
              [([0; 72], []); ([1; 72], []); ([0; 72], [])])
    as (Hres & _ & Honce).
  split; [exact Hres|].
  apply (Honce (0, 72) ([0; 72], [])).
  - eexists. reflexivity.
  - intros call Hin Hbind.
    repeat (apply elem_of_cons in Hin as [->|Hin]; [reflexivity || discriminate Hbind|]).
    apply elem_of_nil in Hin. contradiction.
Defined.

(** C9, as the specification words it, fails: a positional call and a
    keyword call for the same page index and dpi have different keys,
    so that the body runs for each of them; the two images are equal. *)
Lemma get_image_rasterizes_per_call_form :
  (get_images demo_provider
     [([0; 72], []); ([], [("idx"%string, 0); ("dpi"%string, 72)])] empty_cache).1
  = [Some (0, 72); Some (0, 72)]
  /\ body_runs
       (get_images demo_provider
          [([0; 72], []); ([], [("idx"%string, 0); ("dpi"%string, 72)])]
          empty_cache).2
     = [(0, 72); (0, 72)]
  /\ ~ rasterized_once_per_pair demo_provider.
Proof.
  split; [reflexivity|]. split; [reflexivity|].
  intros Honce.
  specialize (Honce [([0; 72], []); ([], [("idx"%string, 0); ("dpi"%string, 72)])]
                    (0, 72)).
  vm_compute in Honce. lia.
Qed.

(** * Further properties *)

(** ** The classifier as a function of the named bits *)

Lemma testbit_mask_where (pick : Z * string -> bool) (l : list (Z * string)) (n : Z) :
  Forall (fun e => 1 <= e.1) l -> 0 <= n ->
  Z.testbit (mask_where pick l) n
  = existsb (fun e => pick e && (n =? e.1 - 1)) l.
Proof.
  intros Hpos Hn. induction Hpos as [|e r He _ IH]; [apply Z.bits_0|].
  cbn [mask_where existsb]. rewrite Z.lor_spec, IH. f_equal.
  destruct (pick e); cbn [andb]; [|apply Z.bits_0].
  rewrite Z.shiftl_1_l, Z.pow2_bits_eqb by lia. apply Z.eqb_sym.
Qed.

Lemma flag_map_positions : Forall (fun e : Z * string => 1 <= e.1) flag_map.
Proof. unfold flag_map. repeat constructor; cbn; lia. Qed.

(** Masking a word with the named bits keeps, at each named position,
    the bit of the word. *)
Lemma land_named_mask (flags : Z) :
  Z.land flags named_mask
  = mask_where (fun e => Z.testbit flags (e.1 - 1)) flag_map.
Proof.
  apply Z.bits_inj'. intros n Hn. unfold named_mask.
  rewrite Z.land_spec, !testbit_mask_where by (apply flag_map_positions || exact Hn).
  induction flag_map as [|e r IH]; [apply andb_false_r|].
  cbn [existsb]. rewrite Bool.andb_orb_distrib_r, IH. f_equal.
  destruct (Z.eqb_spec n (e.1 - 1)) as [->|_];
    [rewrite !andb_true_r|rewrite !andb_false_r]; reflexivity.
Qed.

Lemma mask_where_all_masks (pick : Z * string -> bool) (l : list (Z * string)) :
  mask_where pick l ∈ all_masks l.
Proof.
  induction l as [|e r IH]; [left|].
  cbn [mask_where all_masks]. apply elem_of_app.
  destruct (pick e).
  - right. apply list_elem_of_fmap. eexists. split; [reflexivity|exact IH].
  - left. rewrite Z.lor_0_l. exact IH.
Qed.

(** A boolean fact checked on the 1024 words of named bits holds of the
    named bits of every word. *)
Lemma named_bits_exhaust (P : Z -> bool) :
  forallb P (all_masks flag_map) = true ->
  forall flags : Z, P (Z.land flags named_mask) = true.
Proof.
  intros Hall flags. rewrite land_named_mask.
  rewrite forallb_forall in Hall. apply Hall, list_elem_of_In.
  apply mask_where_all_masks.
Qed.

Lemma testbit_named_mask (flags : Z) (e : Z * string) :
  e ∈ flag_map ->
  Z.testbit (Z.land flags named_mask) (e.1 - 1) = Z.testbit flags (e.1 - 1).
Proof.
  intros Hin. rewrite Z.land_spec.
  assert (Hall : Forall (fun e : Z * string => Z.testbit named_mask (e.1 - 1) = true)
                        flag_map) by (repeat constructor).
  rewrite Forall_forall in Hall. rewrite (Hall e Hin). apply andb_true_r.
Qed.

Lemma foldl_flags_same_bits (a b : Z) (l : list (Z * string)) :
  (forall e, e ∈ l -> Z.testbit a (e.1 - 1) = Z.testbit b (e.1 - 1)) ->
  forall acc : gset string,
    foldl (fun set_flags '(bit_position, flag_name) =>
             if Z.testbit a (bit_position - 1)
             then set_flags ∪ {[ flag_name ]} else set_flags) acc l =
    foldl (fun set_flags '(bit_position, flag_name) =>
             if Z.testbit b (bit_position - 1)
             then set_flags ∪ {[ flag_name ]} else set_flags) acc l.
Proof.
  induction l as [|[bp nm] l IH]; intros Hsame acc; [reflexivity|].
  cbn [foldl]. pose proof (Hsame (bp, nm) ltac:(left)) as Hbit.
  cbn [fst] in Hbit. rewrite Hbit.
  apply IH. intros e He. apply Hsame. right. exact He.
Qed.

Lemma font_flags_to_format_masked (flags : Z) :
  font_flags_to_format (Z.land flags named_mask) = font_flags_to_format flags.
Proof.
  unfold font_flags_to_format, flag_names.
  rewrite !collect_flags_unfold.
  rewrite (foldl_flags_same_bits (Z.land flags named_mask) flags);
    [reflexivity|].
  intros e He. apply testbit_named_mask, He.
Qed.

Example mask_values :
  named_mask = 983151
  /\ mask_of ["Symbolic"; "Italic"]%string = 68
  /\ mask_of ["Symbolic"; "Italic"; "UseExternAttr"]%string = 524356
  /\ mask_of ["Symbolic"]%string = 4
  /\ mask_of plain_indicators = 720939.
Proof. repeat split. Qed.

(** Membership in a list given in full. *)
Ltac in_list := first [left | right; in_list].

(** [check flags P as Hcheck]: the boolean fact [P], verified on every
    word of named bits, stated for the named bits of [flags]. *)
Ltac check_named_bits flags P Hcheck :=
  pose proof (named_bits_exhaust P ltac:(vm_compute; reflexivity) flags) as Hcheck;
  cbv beta in Hcheck;
  rewrite ?font_flags_to_format_masked in Hcheck.

(** A closed decidable statement, settled by evaluation. *)
Ltac by_evaluation :=
  match goal with
  | |- ?P => apply (bool_decide_unpack P); vm_compute; exact I
  end.

Lemma font_names_other_tags `{Collaborators} (font_name : str) :
  ("math"%string ∉ font_names_to_format font_name)
  /\ ("plain"%string ∉ font_names_to_format font_name).
Proof.
  unfold font_names_to_format.
  destruct (contains (u "bold") _), (contains (u "ital") _);
    split; by_evaluation.
Qed.

Lemma font_names_empty_iff `{Collaborators} (font_name : str) :
  font_names_to_format font_name = ∅
  <-> contains (u "bold") (lower font_name) = false
      /\ contains (u "ital") (lower font_name) = false.
Proof.
  unfold font_names_to_format.
  destruct (contains (u "bold") _), (contains (u "ital") _);
    (split; [intros Hempty|intros [? ?]]);
    try discriminate; try (split; reflexivity); try reflexivity;
    exfalso; revert Hempty; by_evaluation.
Qed.

Lemma font_names_bold `{Collaborators} (font_name : str) :
  "bold"%string ∈ font_names_to_format font_name
  <-> contains (u "bold") (lower font_name) = true.
Proof.
  unfold font_names_to_format.
  destruct (contains (u "bold") _), (contains (u "ital") _); set_solver.
Qed.

Lemma font_names_italic `{Collaborators} (font_name : str) :
  "italic"%string ∈ font_names_to_format font_name
  <-> contains (u "ital") (lower font_name) = true.
Proof.
  unfold font_names_to_format.
  destruct (contains (u "bold") _), (contains (u "ital") _); set_solver.
Qed.

(** Two flag words that agree on the ten named bits are classified
    alike, whatever their other bits. *)
Theorem classify_ignores_unnamed_bits `{Collaborators}
    (a b : Z) (font_name : str) :
  Z.land a named_mask = Z.land b named_mask ->
  classify a font_name = classify b font_name.
Proof.
  intros Hsame. unfold classify.
  rewrite <- (font_flags_to_format_masked a), Hsame.
  rewrite font_flags_to_format_masked. reflexivity.
Qed.

Lemma classify_ignores_unnamed_bits_witness :
  classify (H := demo) 68 (u "CMMI10")
  = classify (H := demo) (68 + 16 + 4096 + 2 ^ 40) (u "CMMI10").
Proof. apply classify_ignores_unnamed_bits. reflexivity. Defined.

(** A span's font is tagged bold exactly when the ForceBold bit (bit
    19, value 262144) is set or the lower-cased name contains [bold];
    no other flag takes the tag away. *)
Theorem classify_bold_iff `{Collaborators} (flags : Z) (font_name : str) :
  "bold"%string ∈ classify flags font_name
  <-> Z.testbit flags 18 = true
      \/ contains (u "bold") (lower font_name) = true.
Proof.
  check_named_bits flags
    (fun m => eqb (bool_decide ("bold"%string ∈ font_flags_to_format m))
                  (Z.testbit m 18)) Hcheck.
  apply eqb_prop in Hcheck.
  assert (Hbit : Z.testbit (Z.land flags named_mask) 18 = Z.testbit flags 18)
    by (apply (testbit_named_mask flags (19, "ForceBold"%string));
        unfold flag_map; in_list).
  rewrite Hbit in Hcheck.
  unfold classify. rewrite elem_of_union, font_names_bold, <- Hcheck.
  rewrite bool_decide_eq_true. reflexivity.
Qed.

(** The tag math comes from the flags alone: it is given exactly when
    the named bits are Symbolic and Italic, with or without
    UseExternAttr, and then the flags give no other tag. *)
Theorem classify_math_iff `{Collaborators} (flags : Z) (font_name : str) :
  ("math"%string ∈ classify flags font_name
   <-> Z.land flags named_mask = mask_of ["Symbolic"; "Italic"]%string
       \/ Z.land flags named_mask
          = mask_of ["Symbolic"; "Italic"; "UseExternAttr"]%string)
  /\ ("math"%string ∈ classify flags font_name ->
      font_flags_to_format flags = {[ "math"%string ]}).
Proof.
  check_named_bits flags
    (fun m =>
       if (m =? mask_of ["Symbolic"; "Italic"]%string)
          || (m =? mask_of ["Symbolic"; "Italic"; "UseExternAttr"]%string)
       then bool_decide (font_flags_to_format m = {[ "math"%string ]})
       else negb (bool_decide ("math"%string ∈ font_flags_to_format m))) Hcheck.
  destruct (font_names_other_tags font_name) as [Hname _].
  unfold classify. rewrite elem_of_union.
  destruct (Z.eqb_spec (Z.land flags named_mask)
              (mask_of ["Symbolic"; "Italic"]%string)) as [Ha|Ha];
    [|destruct (Z.eqb_spec (Z.land flags named_mask)
                  (mask_of ["Symbolic"; "Italic"; "UseExternAttr"]%string))
        as [Hb|Hb]];
    cbn [orb] in Hcheck.
  - apply bool_decide_eq_true in Hcheck. rewrite Hcheck. split; [|reflexivity].
    split; [left; exact Ha|intros _; left; set_solver].
  - apply bool_decide_eq_true in Hcheck. rewrite Hcheck. split; [|reflexivity].
    split; [right; exact Hb|intros _; left; set_solver].
  - apply negb_true_iff, bool_decide_eq_false in Hcheck.
    split; [split|]; tauto.
Qed.

(** The tag italic is given exactly when the name contains [ital], or
    the Italic bit (bit 7, value 64) is set and the flags are not one
    of the two math combinations. *)
Theorem classify_italic_iff `{Collaborators} (flags : Z) (font_name : str) :
  "italic"%string ∈ classify flags font_name
  <-> (Z.testbit flags 6 = true
       /\ Z.land flags named_mask <> mask_of ["Symbolic"; "Italic"]%string
       /\ Z.land flags named_mask
          <> mask_of ["Symbolic"; "Italic"; "UseExternAttr"]%string)
      \/ contains (u "ital") (lower font_name) = true.
Proof.
  check_named_bits flags
    (fun m =>
       eqb (bool_decide ("italic"%string ∈ font_flags_to_format m))
           (Z.testbit m 6
            && negb (m =? mask_of ["Symbolic"; "Italic"]%string)
            && negb (m =? mask_of ["Symbolic"; "Italic"; "UseExternAttr"]%string)))
    Hcheck.
  apply eqb_prop in Hcheck.
  assert (Hbit : Z.testbit (Z.land flags named_mask) 6 = Z.testbit flags 6)
    by (apply (testbit_named_mask flags (7, "Italic"%string));
        unfold flag_map; in_list).
  rewrite Hbit in Hcheck.
  unfold classify. rewrite elem_of_union, font_names_italic.
  rewrite <- (bool_decide_eq_true ("italic"%string ∈ font_flags_to_format flags)).
  rewrite Hcheck, !andb_true_iff, !negb_true_iff, !Z.eqb_neq. tauto.
Qed.

Lemma land_plain_indicators (flags : Z) :
  Z.land (Z.land flags named_mask) (mask_of plain_indicators)
  = Z.land flags (mask_of plain_indicators).
Proof. rewrite <- Z.land_assoc. reflexivity. Qed.

(** The tag plain is given exactly when no named bit is set, or when
    one of FixedPitch, Serif, Script, Nonsymbolic, AllCap, SmallCap and
    UseExternAttr is set and the flags are not the math combination
    with UseExternAttr. *)
Theorem classify_plain_iff `{Collaborators} (flags : Z) (font_name : str) :
  "plain"%string ∈ classify flags font_name
  <-> Z.land flags named_mask = 0
      \/ (Z.land flags (mask_of plain_indicators) <> 0
          /\ Z.land flags named_mask
             <> mask_of ["Symbolic"; "Italic"; "UseExternAttr"]%string).
Proof.
  check_named_bits flags
    (fun m =>
       eqb (bool_decide ("plain"%string ∈ font_flags_to_format m))
           ((m =? 0)
            || negb (Z.land m (mask_of plain_indicators) =? 0)
               && negb (m =? mask_of ["Symbolic"; "Italic"; "UseExternAttr"]%string)))
    Hcheck.
  apply eqb_prop in Hcheck. rewrite land_plain_indicators in Hcheck.
  destruct (font_names_other_tags font_name) as [_ Hname].
  unfold classify. rewrite elem_of_union.
  rewrite <- (bool_decide_eq_true ("plain"%string ∈ font_flags_to_format flags)).
  rewrite Hcheck, orb_true_iff, andb_true_iff, !negb_true_iff, !Z.eqb_neq, Z.eqb_eq.
  tauto.
Qed.

(** The classifier returns the empty set exactly when Symbolic is the
    only named bit set and the name contains neither [bold] nor
    [ital]. *)
Theorem classify_empty_iff `{Collaborators} (flags : Z) (font_name : str) :
  classify flags font_name = ∅
  <-> Z.land flags named_mask = mask_of ["Symbolic"]%string
      /\ contains (u "bold") (lower font_name) = false
      /\ contains (u "ital") (lower font_name) = false.
Proof.
  check_named_bits flags
    (fun m => eqb (bool_decide (font_flags_to_format m = ∅))
                  (m =? mask_of ["Symbolic"]%string)) Hcheck.
  apply eqb_prop in Hcheck.
  unfold classify. rewrite empty_union_L.
  rewrite <- (bool_decide_eq_true (font_flags_to_format flags = ∅)), Hcheck.
  rewrite Z.eqb_eq.
  pose proof (font_names_empty_iff font_name) as Hnames.
  tauto.
Qed.

(** ** Rendering: what the steps do to the text *)

Lemma replace_single (a : N) (new s : str) :
  replace [a] new s = flat_map (fun c => if (a =? c)%N then new else [c]) s.
Proof.
  unfold replace. induction s as [|c r IH]; [reflexivity|].
  cbn [replace_go startswith length pred flat_map]. rewrite andb_true_r.
  destruct (a =? c)%N; cbn [app]; rewrite IH; reflexivity.
Qed.

Lemma flat_map_flat_map {T : Type} (f g : T -> list T) (s : list T) :
  flat_map g (flat_map f s) = flat_map (fun c => flat_map g (f c)) s.
Proof.
  induction s as [|c r IH]; [reflexivity|].
  cbn [flat_map]. rewrite flat_map_app, IH. reflexivity.
Qed.

(** The five replacements of [html.escape] act on each character of
    the input on its own. *)
Lemma escape_flat_map (s : str) : escape s = flat_map escape_char s.
Proof.
  unfold escape. cbv zeta.
  change (u "&") with [38%N]. change (u "<") with [60%N].
  change (u ">") with [62%N]. change (u "'") with [39%N].
  rewrite !replace_single, !flat_map_flat_map.
  apply flat_map_ext. intros c. unfold escape_char.
  destruct (N.eqb_spec c 38) as [->|H38]; [reflexivity|].
  destruct (N.eqb_spec c 60) as [->|H60]; [reflexivity|].
  destruct (N.eqb_spec c 62) as [->|H62]; [reflexivity|].
  destruct (N.eqb_spec c 34) as [->|H34]; [reflexivity|].
  destruct (N.eqb_spec c 39) as [->|H39]; [reflexivity|].
  repeat match goal with
         | |- context [(?k =? c)%N] =>
             let E := fresh in
             destruct (N.eqb_spec k c) as [E|E];
             [exfalso; congruence|]; cbn [flat_map app]
         end.
  reflexivity.
Qed.






Lemma ordinary_inv (c : N) :
  ordinary c = true ->
  is_newline c = false /\ c <> LF /\ c <> NBSP /\ escape_char c = [c].
Proof.
  unfold ordinary, markup_special, escape_char, is_newline.
  rewrite negb_true_iff, !orb_false_iff, !N.eqb_neq.
  intros ((([Hlf Hcr] & Hamp) & ((Hlt & Hgt) & Hdq) & Hsq) & Hnbsp).
  split; [|split; [exact Hlf|split; [exact Hnbsp|]]].
  - split; assumption.
  - repeat match goal with
           | H : c <> _ |- _ => apply N.eqb_neq in H; rewrite ?H; clear H
           end.
    reflexivity.
Qed.

Lemma replace_hyphen_newline_none (s : str) :
  LF ∉ s -> replace [HYPHEN; LF] [] s = s.
Proof.
  unfold replace. induction s as [|c r IH]; intros Hno; [reflexivity|].
  cbn [replace_go startswith].
  assert (Hr : LF ∉ r) by (intros Hin; apply Hno; right; exact Hin).
  destruct r as [|b r'].
  - rewrite andb_false_r. reflexivity.
  - assert (Hb : (LF =? b)%N = false).
    { apply N.eqb_neq. intros <-. apply Hno. right. left. }
    rewrite Hb, andb_false_l, andb_false_r. f_equal. apply IH, Hr.
Qed.

(** A hyphen followed by a newline is removed where it stands between
    two stretches of text without newlines. *)
Lemma replace_hyphen_newline_join (a b : str) :
  LF ∉ a -> LF ∉ b ->
  replace [HYPHEN; LF] [] (a ++ [HYPHEN; LF] ++ b) = a ++ b.
Proof.
  intros Ha Hb. unfold replace. induction a as [|c r IH].
  - cbn. apply replace_hyphen_newline_none, Hb.
  - cbn [app replace_go startswith].
    assert (Hr : LF ∉ r) by (intros Hin; apply Ha; right; exact Hin).
    assert (Hnext : match r ++ HYPHEN :: LF :: b with
                    | [] => false
                    | d :: _ => (LF =? d)%N && true
                    end = false).
    { destruct r as [|d r']; [reflexivity|]. cbn [app].
      rewrite andb_true_r. apply N.eqb_neq. intros <-. apply Hr. left. }
    cbn [app] in Hnext |- *.
    destruct (r ++ HYPHEN :: LF :: b) as [|d t] eqn:Hrest.
    + destruct r; discriminate Hrest.
    + cbn [startswith]. rewrite Hnext, andb_false_r. f_equal.
      rewrite <- Hrest. apply IH, Hr.
Qed.

Lemma escape_ordinary (s : str) :
  forallb ordinary s = true -> escape s = s.
Proof.
  rewrite escape_flat_map. induction s as [|c r IH]; [reflexivity|].
  cbn [forallb flat_map]. intros [Hc Hr]%andb_true_iff.
  destruct (ordinary_inv c Hc) as (_ & _ & _ & ->). rewrite IH by exact Hr.
  reflexivity.
Qed.

Lemma re_sub_newlines_no_newline (s : str) :
  LF ∉ s -> re_sub_newlines s = s.
Proof.
  induction s as [|c r IH]; intros Hno; [reflexivity|].
  rewrite re_sub_newlines_keep.
  - f_equal. apply IH. intros Hin. apply Hno. right. exact Hin.
  - assert (Hc : (c =? LF)%N = false)
      by (apply N.eqb_neq; intros ->; apply Hno; left).
    cbn [count_units]. destruct r; [lia|]. rewrite Hc. cbn. lia.
Qed.

(** [cleanup_text] leaves a text without newline and without
    non-breaking space as it is. *)
Lemma cleanup_text_plain (s : str) :
  LF ∉ s -> NBSP ∉ s -> cleanup_text s = s.
Proof.
  intros Hlf Hnbsp. rewrite cleanup_text_map, re_sub_newlines_no_newline by exact Hlf.
  induction s as [|c r IH]; [reflexivity|].
  cbn [map]. unfold nbsp_to_space at 1.
  assert (Hc : (c =? NBSP)%N = false)
    by (apply N.eqb_neq; intros ->; apply Hnbsp; left).
  rewrite Hc. f_equal. apply IH; intros Hin; [apply Hlf|apply Hnbsp]; right; exact Hin.
Qed.

Lemma ordinary_not_elem (s : str) (c : N) :
  forallb ordinary s = true -> ordinary c = false -> c ∉ s.
Proof.
  intros Hall Hc Hin. rewrite forallb_forall in Hall.
  apply list_elem_of_In, Hall in Hin. congruence.
Qed.

(** The last three steps of the preparation leave ordinary text as it
    is. *)
Lemma finish_ordinary (s : str) :
  forallb ordinary s = true ->
  cleanup_text (escape (replace [HYPHEN; LF] [] s)) = s.
Proof.
  intros Hall.
  assert (Hlf : LF ∉ s) by (apply ordinary_not_elem; [exact Hall|reflexivity]).
  assert (Hnbsp : NBSP ∉ s) by (apply ordinary_not_elem; [exact Hall|reflexivity]).
  rewrite replace_hyphen_newline_none, escape_ordinary, cleanup_text_plain;
    trivial.
Qed.

Lemma drop_trailing_newlines (nl rest : str) (replaced : bool) :
  forallb is_newline nl = true ->
  match rest with [] => True | c :: _ => is_newline c = false end ->
  drop_trailing (nl ++ rest) replaced
  = (rest, match nl with [] => replaced | _ :: _ => true end).
Proof.
  intros Hnl Hrest. revert replaced.
  induction nl as [|c r IH]; intros replaced.
  - cbn [app]. destruct rest as [|c t]; [reflexivity|].
    cbn [drop_trailing]. rewrite Hrest. reflexivity.
  - cbn [forallb] in Hnl. apply andb_true_iff in Hnl as [Hc Hr].
    cbn [app drop_trailing]. rewrite Hc, (IH Hr). destruct r; reflexivity.
Qed.

Lemma lstrip_newlines (nl rest : str) :
  forallb is_newline nl = true ->
  match rest with [] => True | c :: _ => is_newline c = false end ->
  lstrip_by is_newline (nl ++ rest) = rest.
Proof.
  intros Hnl Hrest. induction nl as [|c r IH].
  - destruct rest as [|c t]; [reflexivity|]. cbn. rewrite Hrest. reflexivity.
  - cbn [forallb] in Hnl. apply andb_true_iff in Hnl as [Hc Hr].
    cbn [app lstrip_by]. rewrite Hc. apply IH, Hr.
Qed.

Lemma forallb_rev {T : Type} (p : T -> bool) (l : list T) :
  forallb p l = true -> forallb p (rev l) = true.
Proof.
  rewrite !forallb_forall. intros Hall x Hx. apply Hall, in_rev, Hx.
Qed.

Lemma rev_head_ordinary (body : str) :
  forallb ordinary body = true ->
  match rev body with [] => True | c :: _ => is_newline c = false end.
Proof.
  intros Hall. apply forallb_rev in Hall.
  destruct (rev body) as [|c t]; [exact I|].
  cbn [forallb] in Hall. apply andb_true_iff in Hall as [Hc _].
  apply ordinary_inv in Hc as [Hc _]. exact Hc.
Qed.

Lemma head_ordinary (body : str) :
  forallb ordinary body = true ->
  match body with [] => True | c :: _ => is_newline c = false end.
Proof.
  destruct body as [|c t]; [intros _; exact I|].
  cbn [forallb]. intros [Hc _]%andb_true_iff.
  apply ordinary_inv in Hc as [Hc _]. exact Hc.
Qed.

(** Without a matching wrapper, a span that is not ignored renders as
    its prepared text. *)
Lemma assemble_html_unwrapped `{Collaborators} {A B : Type}
    (self : Span) (child_blocks : A) (parent_structure : B) :
  ignore_for_output self = false ->
  first_matching self = None ->
  assemble_html self child_blocks parent_structure = prepared_text self.
Proof.
  intros Hshown Hnone. unfold assemble_html. rewrite Hshown.
  unfold first_matching, priority in Hnone. cbn [List.find applies] in Hnone.
  destruct (italic self); [discriminate|].
  destruct (bold self); [discriminate|].
  destruct (math self); [discriminate|].
  destruct (truthy (url self)); [destruct (truthy (anchor self)); discriminate|].
  destruct (truthy (anchor self)); [discriminate|]. reflexivity.
Qed.

(** Newlines and carriage returns around a text of ordinary characters
    are dropped; if some were dropped at the end, one space is added,
    unless the text ends in a hyphen.  The result is what an unwrapped
    span renders as. *)
Theorem assemble_html_trims_newlines `{Collaborators} {A B : Type}
    (self : Span) (child_blocks : A) (parent_structure : B)
    (lead body trail : str) :
  text self = lead ++ body ++ trail ->
  forallb is_newline lead = true ->
  forallb is_newline trail = true ->
  forallb ordinary body = true ->
  body <> [] ->
  prepared_text self
  = (if bool_decide (trail = []) || endswith [HYPHEN] body
     then body else body ++ [SPACE])
  /\ (ignore_for_output self = false -> first_matching self = None ->
      assemble_html self child_blocks parent_structure
      = if bool_decide (trail = []) || endswith [HYPHEN] body
        then body else body ++ [SPACE]).
Proof.
  intros Htext Hlead Htrail Hbody Hne.
  assert (Hprep : prepared_text self
                  = if bool_decide (trail = []) || endswith [HYPHEN] body
                    then body else body ++ [SPACE]).
  { unfold prepared_text. rewrite Htext, !rev_app_distr, <- app_assoc.
    rewrite (drop_trailing_newlines (rev trail) (rev body ++ rev lead) false).
    - rewrite rev_app_distr, !rev_involutive.
      rewrite lstrip_newlines by (trivial; apply head_ordinary, Hbody).
      assert (Hflag : match rev trail with [] => false | _ :: _ => true end
                      = negb (bool_decide (trail = []))).
      { destruct trail as [|t ts]; [reflexivity|]. cbn [rev].
        destruct (rev ts); reflexivity. }
      rewrite Hflag.
      destruct (bool_decide (trail = [])); cbn [negb andb orb];
        [apply finish_ordinary, Hbody|].
      destruct (endswith [HYPHEN] body); cbn [negb];
        [apply finish_ordinary, Hbody|].
      apply finish_ordinary. rewrite forallb_app, Hbody. reflexivity.
    - apply forallb_rev, Htrail.
    - pose proof (rev_head_ordinary body Hbody) as Hhead.
      destruct (rev body) as [|c t] eqn:Hrev; [|exact Hhead].
      apply (f_equal (@rev N)) in Hrev. rewrite rev_involutive in Hrev.
      contradiction. }
  split; [exact Hprep|].
  intros Hshown Hnone. rewrite assemble_html_unwrapped by assumption.
  exact Hprep.
Qed.

(** A hyphen followed by a newline between two stretches of ordinary
    characters is removed, which joins the two halves of a word broken
    at the end of a line. *)
Theorem assemble_html_joins_hyphenated `{Collaborators} {A B : Type}
    (self : Span) (child_blocks : A) (parent_structure : B) (a b : str) :
  text self = a ++ [HYPHEN; LF] ++ b ->
  forallb ordinary a = true ->
  forallb ordinary b = true ->
  b <> [] ->
  prepared_text self = a ++ b
  /\ (ignore_for_output self = false -> first_matching self = None ->
      assemble_html self child_blocks parent_structure = a ++ b).
Proof.
  intros Htext Ha Hb Hne.
  assert (Hprep : prepared_text self = a ++ b).
  { assert (Hdrop : drop_trailing (rev (a ++ [HYPHEN; LF] ++ b)) false
                    = (rev (a ++ [HYPHEN; LF] ++ b), false)).
    { apply (drop_trailing_newlines [] _ false); [reflexivity|].
      change (match rev (a ++ [HYPHEN; LF] ++ b) with
              | [] => True
              | c :: _ => is_newline c = false
              end).
      rewrite !rev_app_distr.
      pose proof (rev_head_ordinary b Hb) as Hhead.
      destruct (rev b) as [|c t] eqn:Hrev; [|exact Hhead].
      apply (f_equal (@rev N)) in Hrev. rewrite rev_involutive in Hrev.
      contradiction. }
    assert (Hstrip : lstrip_by is_newline (a ++ [HYPHEN; LF] ++ b)
                     = a ++ [HYPHEN; LF] ++ b).
    { apply (lstrip_newlines []); [reflexivity|].
      destruct a as [|c t]; [reflexivity|apply (head_ordinary (c :: t)), Ha]. }
    unfold prepared_text. rewrite Htext, Hdrop, rev_involutive, Hstrip.
    cbn [andb].
    assert (Hlfa : LF ∉ a) by (apply ordinary_not_elem; [exact Ha|reflexivity]).
    assert (Hlfb : LF ∉ b) by (apply ordinary_not_elem; [exact Hb|reflexivity]).
    rewrite replace_hyphen_newline_join by assumption.
    assert (Hab : forallb ordinary (a ++ b) = true)
      by (rewrite forallb_app, Ha, Hb; reflexivity).
    rewrite escape_ordinary by exact Hab.
    apply cleanup_text_plain; apply ordinary_not_elem; (exact Hab || reflexivity). }
  split; [exact Hprep|].
  intros Hshown Hnone. rewrite assemble_html_unwrapped by assumption.
  exact Hprep.
Qed.

(** A text made only of newlines and carriage returns is prepared as a
    single space, and the empty text as the empty text. *)
Theorem prepared_text_only_newlines `{Collaborators} (self : Span) :
  forallb is_newline (text self) = true ->
  prepared_text self = if bool_decide (text self = []) then [] else [SPACE].
Proof.
  intros Hall. unfold prepared_text.
  pose proof (drop_trailing_newlines (rev (text self)) [] false
                (forallb_rev _ _ Hall) I) as Hdrop.
  rewrite app_nil_r in Hdrop. rewrite Hdrop. cbn [rev lstrip_by].
  destruct (text self) as [|c t]; [reflexivity|].
  cbn [rev]. destruct (rev t); reflexivity.
Qed.

(** [cleanup_text] never makes a text longer. *)
Theorem cleanup_text_length (s : str) :
  (length (cleanup_text s) <= length s)%nat.
Proof.
  rewrite cleanup_text_map, length_map.
  induction s as [s IH] using (induction_ltof1 _ (@length N)).
  unfold ltof in IH. destruct s as [|c r]; [reflexivity|].
  destruct (le_lt_dec 3 (count_units (c :: r))) as [Hrun|Hno].
  - rewrite re_sub_newlines_run by exact Hrun.
    pose proof (count_units_length (c :: r)) as Hlen.
    assert (Hsmaller : (length (drop (2 * count_units (c :: r)) (c :: r))
                        < length (c :: r))%nat)
      by (rewrite length_drop; cbn [length] in *; lia).
    specialize (IH _ Hsmaller). rewrite length_drop in IH.
    cbn [app length] in *. lia.
  - rewrite re_sub_newlines_keep by exact Hno.
    specialize (IH r ltac:(cbn [length]; lia)). cbn [length]. lia.
Qed.

(** ** The provider: what [setup] stores *)

(** *** Stripping *)

Lemma lstrip_by_nil_iff (p : N -> bool) (s : str) :
  lstrip_by p s = [] <-> forallb p s = true.
Proof.
  induction s as [|c r IH]; [split; reflexivity|].
  cbn [lstrip_by forallb]. destruct (p c); cbn [andb]; [exact IH|].
  split; discriminate.
Qed.

Lemma forallb_lstrip_by (p : N -> bool) (s : str) :
  forallb p (lstrip_by p s) = forallb p s.
Proof.
  induction s as [|c r IH]; [reflexivity|].
  cbn [lstrip_by]. destruct (p c) eqn:Hc; [|reflexivity].
  cbn [forallb]. rewrite Hc. exact IH.
Qed.

Lemma forallb_rev_eq {T : Type} (p : T -> bool) (l : list T) :
  forallb p (rev l) = forallb p l.
Proof.
  destruct (forallb p l) eqn:Hall.
  - apply forallb_rev, Hall.
  - destruct (forallb p (rev l)) eqn:Hrev; [|reflexivity].
    apply forallb_rev in Hrev. rewrite rev_involutive in Hrev. congruence.
Qed.

(** [strip] returns the empty string exactly on whitespace-only
    input. *)
Lemma strip_nil_iff (s : str) : strip s = [] <-> forallb isspace s = true.
Proof.
  unfold strip, rstrip_by. split.
  - intros Hnil. apply (f_equal (@rev N)) in Hnil.
    rewrite rev_involutive in Hnil. cbn [rev] in Hnil.
    apply lstrip_by_nil_iff in Hnil.
    rewrite forallb_rev_eq, forallb_lstrip_by in Hnil. exact Hnil.
  - intros Hall. apply lstrip_by_nil_iff in Hall. rewrite Hall. reflexivity.
Qed.

Lemma lstrip_by_snoc (p : N -> bool) (l : str) (c : N) :
  p c = false -> lstrip_by p (l ++ [c]) = lstrip_by p l ++ [c].
Proof.
  intros Hc. induction l as [|d r IH]; cbn [app lstrip_by].
  - rewrite Hc. reflexivity.
  - destruct (p d); [exact IH|reflexivity].
Qed.

Lemma lstrip_by_fixed (p : N -> bool) (s : str) :
  lstrip_by p (lstrip_by p s) = lstrip_by p s.
Proof.
  induction s as [|c r IH]; [reflexivity|].
  cbn [lstrip_by]. destruct (p c) eqn:Hc; [exact IH|].
  cbn [lstrip_by]. rewrite Hc. reflexivity.
Qed.

(** Stripping at the end keeps a text stripped at the start. *)
Lemma lstrip_by_rstrip_by (p : N -> bool) (t : str) :
  lstrip_by p t = t -> lstrip_by p (rstrip_by p t) = rstrip_by p t.
Proof.
  intros Hfix. destruct t as [|c r]; [reflexivity|].
  cbn [lstrip_by] in Hfix. destruct (p c) eqn:Hc.
  - exfalso. apply (f_equal (@length N)) in Hfix.
    assert (Hle : forall l : str, (length (lstrip_by p l) <= length l)%nat).
    { induction l as [|d l IHl]; [reflexivity|].
      cbn [lstrip_by]. destruct (p d); cbn [length]; lia. }
    specialize (Hle r). cbn [length] in Hfix. lia.
  - unfold rstrip_by. cbn [rev]. rewrite lstrip_by_snoc by exact Hc.
    rewrite rev_app_distr. cbn [rev app lstrip_by]. rewrite Hc. reflexivity.
Qed.

(** [strip] is idempotent: a stripped text has nothing left to strip. *)
Lemma strip_strip (s : str) : strip (strip s) = strip s.
Proof.
  unfold strip.
  rewrite (lstrip_by_rstrip_by isspace (lstrip_by isspace s))
    by apply lstrip_by_fixed.
  unfold rstrip_by. rewrite rev_involutive, lstrip_by_fixed. reflexivity.
Qed.

Section SetupFacts.
Context `{Collaborators}.

(** *** Building spans and lines *)

(** The spans of a line are the spans built from the raw spans it
    keeps, in their order. *)
Lemma build_spans_kept (page_id : Z) (raw_spans : list RawSpan) :
  build_spans page_id raw_spans
  = map (make_span page_id) (List.filter kept raw_spans).
Proof.
  unfold build_spans.
  match goal with
  | |- foldl ?f [] _ = _ =>
      cut (forall spans,
              foldl f spans raw_spans
              = spans ++ map (make_span page_id) (List.filter kept raw_spans));
      [intros Hgen; apply Hgen|]
  end.
  induction raw_spans as [|span rest IH]; intros spans;
    [cbn; rewrite app_nil_r; reflexivity|].
  cbn [foldl List.filter].
  replace (kept span) with (negb (bool_decide (strip (rs_text span) = [])))
    by reflexivity.
  destruct (bool_decide (strip (rs_text span) = [])); cbn [negb].
  - apply IH.
  - rewrite IH, <- app_assoc. reflexivity.
Qed.

Lemma add_lines_map (page_id : Z) (lines : list RawLine) (acc : PdfPageProviderLine) :
  foldl (add_line page_id) acc lines
  = (acc.1 ++ map (make_line page_id) lines,
     acc.2 ++ map (fun line => build_spans page_id (rl_spans line)) lines).
Proof.
  revert acc. induction lines as [|line rest IH]; intros [ls ss].
  - cbn. rewrite !app_nil_r. reflexivity.
  - cbn [foldl]. rewrite IH. unfold add_line. cbn [fst snd map].
    rewrite <- !app_assoc. reflexivity.
Qed.

Lemma build_page_unfold (page : RawPage) :
  build_page page
  = (map (make_line (rp_page page)) (raw_lines page),
     map (fun line => build_spans (rp_page page) (rl_spans line)) (raw_lines page)).
Proof.
  unfold build_page, raw_lines.
  match goal with
  | |- foldl ?f _ _ = _ =>
      cut (forall acc : PdfPageProviderLine,
              foldl f acc (rp_blocks page)
              = (acc.1 ++ map (make_line (rp_page page))
                              (flat_map rb_lines (rp_blocks page)),
                 acc.2 ++ map (fun line => build_spans (rp_page page) (rl_spans line))
                              (flat_map rb_lines (rp_blocks page))));
      [intros Hgen; rewrite Hgen; reflexivity|]
  end.
  induction (rp_blocks page) as [|block rest IH]; intros acc.
  - cbn. rewrite !app_nil_r. destruct acc; reflexivity.
  - cbn [foldl flat_map]. rewrite IH, add_lines_map. cbn [fst snd].
    rewrite !map_app, <- !app_assoc. reflexivity.
Qed.

(** A page is built line by line: one [Line] and one list of spans for
    every raw line, in the order of the blocks and of their lines, also
    for a line of which no span is kept. *)
Theorem build_page_lines (page : RawPage) :
  build_page page
  = (map (make_line (rp_page page)) (raw_lines page),
     map (fun line => map (make_span (rp_page page)) (List.filter kept (rl_spans line)))
         (raw_lines page)).
Proof.
  rewrite build_page_unfold. f_equal.
  apply map_ext. intros line. apply build_spans_kept.
Qed.

Lemma build_page_lengths (page : RawPage) :
  length (build_page page).1 = length (raw_lines page)
  /\ length (build_page page).2 = length (raw_lines page).
Proof.
  rewrite build_page_unfold. cbn [fst snd]. rewrite !length_map.
  split; reflexivity.
Qed.

(** A span of a built page comes from a kept raw span of the page. *)
Lemma built_span_origin (page : RawPage) (span : Span) :
  span ∈ concat (build_page page).2 ->
  exists raw,
    In raw (flat_map rl_spans (raw_lines page))
    /\ strip (rs_text raw) <> []
    /\ span = make_span (rp_page page) raw.
Proof.
  rewrite build_page_unfold. cbn [snd]. intros Hin.
  apply list_elem_of_In, in_concat in Hin as [spans [Hspans Hspan]].
  apply in_map_iff in Hspans as [line [<- Hline]].
  rewrite build_spans_kept in Hspan.
  apply in_map_iff in Hspan as [raw [<- Hraw]].
  apply filter_In in Hraw as [Hraw Hkept].
  unfold kept in Hkept. apply negb_true_iff, bool_decide_eq_false in Hkept.
  exists raw. split; [|split; [exact Hkept|reflexivity]].
  apply in_flat_map. exists line. split; assumption.
Qed.

Lemma classify_tags (flags : Z) (font_name : str) :
  classify flags font_name ⊆ {[ "plain"; "math"; "bold"; "italic" ]}%string.
Proof.
  unfold classify.
  pose proof (font_flags_to_format_range flags).
  pose proof (font_names_to_format_range font_name).
  set_solver.
Qed.

(** Every span that [setup] builds has a text that is not empty and has
    no whitespace at either end, carries the page index and the
    character offsets of its raw span, and has distinct format tags
    among plain, math, bold and italic. *)
Theorem build_page_spans (page : RawPage) (span : Span) :
  span ∈ concat (build_page page).2 ->
  page_id span = rp_page page
  /\ text span <> []
  /\ strip (text span) = text span
  /\ (exists raw, In raw (flat_map rl_spans (raw_lines page))
                  /\ minimum_position span = rs_char_start_idx raw
                  /\ maximum_position span = rs_char_end_idx raw
                  /\ text span = strip (rs_text raw))
  /\ NoDup (formats span)
  /\ (forall tag, tag ∈ formats span ->
                  tag ∈ [ "plain"; "math"; "bold"; "italic" ]%string).
Proof.
  intros Hin. destruct (built_span_origin page span Hin) as (raw & Hraw & Hkept & ->).
  cbn [make_span page_id text minimum_position maximum_position formats].
  split; [reflexivity|]. split; [exact Hkept|].
  split; [apply strip_strip|]. split.
  - exists raw. split; [exact Hraw|repeat split].
  - split; [apply NoDup_elements|].
    intros tag Htag. apply elem_of_elements, classify_tags in Htag.
    rewrite !elem_of_union, !elem_of_singleton in Htag.
    repeat (destruct Htag as [Htag|Htag]); subst tag; in_list.
Qed.

End SetupFacts.

Section GateFacts.
Context `{Collaborators}.

(** *** The quality gate *)

Lemma spans_text_whitespace (spans : list Span) (acc : str) :
  forallb isspace (foldl (fun txt span => txt ++ [SPACE] ++ text span) acc spans)
  = forallb isspace acc && forallb (fun span => forallb isspace (text span)) spans.
Proof.
  revert acc. induction spans as [|span rest IH]; intros acc;
    [cbn; rewrite andb_true_r; reflexivity|].
  cbn [foldl forallb]. rewrite IH, !forallb_app. cbn [forallb].
  change (isspace SPACE) with true. cbn [andb].
  destruct (forallb isspace acc), (forallb isspace (text span)); reflexivity.
Qed.

Lemma line_spans_text_whitespace (line_spans_list : list (list Span)) :
  forallb isspace (line_spans_text line_spans_list)
  = forallb (fun span => forallb isspace (text span)) (concat line_spans_list).
Proof.
  unfold line_spans_text.
  match goal with
  | |- forallb _ (foldl ?f [] _) = _ =>
      cut (forall acc,
              forallb isspace (foldl f acc line_spans_list)
              = forallb isspace acc
                && forallb (fun span => forallb isspace (text span))
                           (concat line_spans_list));
      [intros Hgen; apply Hgen|]
  end.
  induction line_spans_list as [|spans rest IH]; intros acc;
    [cbn; rewrite andb_true_r; reflexivity|].
  cbn [foldl concat]. rewrite IH, !forallb_app, spans_text_whitespace.
  change (forallb isspace [LF]) with true.
  destruct (forallb isspace acc),
    (forallb (fun span => forallb isspace (text span)) spans); reflexivity.
Qed.

Lemma existsb_visible (spans : list Span) :
  existsb visible spans
  = negb (forallb (fun span => forallb isspace (text span)) spans).
Proof.
  induction spans as [|span rest IH]; [reflexivity|].
  cbn [existsb forallb]. rewrite IH, negb_andb. reflexivity.
Qed.

Lemma check_line_spans_bool (line_spans_list : list (list Span)) :
  check_line_spans line_spans_list
  = existsb visible (concat line_spans_list)
    && negb (detect_bad_ocr (line_spans_text line_spans_list)).
Proof.
  unfold check_line_spans.
  change (foldl _ [] line_spans_list) with (line_spans_text line_spans_list).
  rewrite existsb_visible, <- line_spans_text_whitespace.
  destruct (concat line_spans_list) as [|span rest] eqn:Hspans.
  - cbn [length Nat.eqb].
    rewrite line_spans_text_whitespace, Hspans. reflexivity.
  - cbn [length Nat.eqb].
    destruct (forallb isspace (line_spans_text line_spans_list)) eqn:Hws.
    + apply strip_nil_iff in Hws. rewrite Hws. reflexivity.
    + assert (Hstrip : strip (line_spans_text line_spans_list) <> []).
      { intros Hnil. apply strip_nil_iff in Hnil. congruence. }
      destruct (strip (line_spans_text line_spans_list)); [contradiction|].
      cbn [length Nat.eqb negb andb].
      destruct (detect_bad_ocr _); reflexivity.
Qed.

(** The gate accepts the spans of a page exactly when one of them has
    a character that is not whitespace and the OCR heuristic does not
    flag the assembled text; a page without spans, or with blank spans
    only, is rejected before the heuristic is asked. *)
Theorem check_line_spans_iff (line_spans_list : list (list Span)) :
  check_line_spans line_spans_list = true
  <-> existsb visible (concat line_spans_list) = true
      /\ detect_bad_ocr (line_spans_text line_spans_list) = false.
Proof.
  rewrite check_line_spans_bool, andb_true_iff, negb_true_iff. reflexivity.
Qed.

(** Every span that [setup] builds is visible. *)
Lemma build_page_visible (page : RawPage) (span : Span) :
  span ∈ concat (build_page page).2 -> visible span = true.
Proof.
  intros Hin. destruct (built_span_origin page span Hin) as (raw & _ & Hkept & ->).
  unfold visible. cbn [make_span text]. apply negb_true_iff.
  destruct (forallb isspace (strip (rs_text raw))) eqn:Hws; [|reflexivity].
  apply strip_nil_iff in Hws. rewrite strip_strip in Hws. contradiction.
Qed.

Lemma build_page_any_span (page : RawPage) :
  existsb visible (concat (build_page page).2)
  = existsb kept (flat_map rl_spans (raw_lines page)).
Proof.
  apply Bool.eq_iff_eq_true. rewrite !existsb_exists. split.
  - intros [span [Hin _]]. apply list_elem_of_In in Hin.
    destruct (built_span_origin page span Hin) as (raw & Hraw & Hkept & _).
    exists raw. split; [exact Hraw|].
    unfold kept. apply negb_true_iff, bool_decide_eq_false. exact Hkept.
  - intros [raw [Hraw Hkept]].
    apply in_flat_map in Hraw as [line [Hline Hraw]].
    assert (Hin : In (make_span (rp_page page) raw) (concat (build_page page).2)).
    { rewrite build_page_unfold. cbn [snd]. apply in_concat.
      exists (build_spans (rp_page page) (rl_spans line)).
      split.
      - apply in_map_iff. exists line. split; [reflexivity|exact Hline].
      - rewrite build_spans_kept. apply in_map, filter_In. split; assumption. }
    exists (make_span (rp_page page) raw). split; [exact Hin|].
    apply (build_page_visible page), list_elem_of_In, Hin.
Qed.

(** *** The map of pages *)

Lemma add_page_lookup (page_lines : gmap Z PdfPageProviderLine) (page : RawPage) :
  add_page page_lines page !! rp_page page
  = if check_line_spans (build_page page).2 then Some (build_page page)
    else page_lines !! rp_page page.
Proof.
  unfold add_page. destruct (build_page page) as [lines line_spans]. cbn [snd].
  destruct (check_line_spans line_spans); [apply lookup_insert_eq|reflexivity].
Qed.

Lemma add_pages_origin (pages : list RawPage) (idx : Z) (v : PdfPageProviderLine) :
  forall page_lines : gmap Z PdfPageProviderLine,
    foldl add_page page_lines pages !! idx = Some v ->
    page_lines !! idx = Some v
    \/ exists page, page ∈ pages /\ rp_page page = idx /\ build_page page = v
                    /\ check_line_spans v.2 = true.
Proof.
  induction pages as [|page rest IH]; intros page_lines Hlook; [left; exact Hlook|].
  cbn [foldl] in Hlook. apply IH in Hlook as [Hlook|(p & Hp & Hid & Hv & Hok)].
  - destruct (decide (rp_page page = idx)) as [<-|Hne].
    + rewrite add_page_lookup in Hlook.
      destruct (check_line_spans (build_page page).2) eqn:Hok; [|left; exact Hlook].
      injection Hlook as <-. right. exists page.
      split; [left|]. repeat split. exact Hok.
    + rewrite add_page_other in Hlook by exact Hne. left. exact Hlook.
  - right. exists p. split; [right; exact Hp|]. repeat split; assumption.
Qed.

Lemma add_pages_untouched (pages : list RawPage) (idx : Z) :
  idx ∉ rp_page <$> pages ->
  forall page_lines : gmap Z PdfPageProviderLine,
    foldl add_page page_lines pages !! idx = page_lines !! idx.
Proof.
  induction pages as [|page rest IH]; intros Hnot page_lines; [reflexivity|].
  cbn [foldl]. rewrite fmap_cons in Hnot. apply not_elem_of_cons in Hnot as [Hne Hrest].
  rewrite IH by exact Hrest. apply add_page_other. congruence.
Qed.

Lemma add_pages_nodup (pages : list RawPage) (page : RawPage) :
  NoDup (rp_page <$> pages) -> page ∈ pages ->
  forall page_lines : gmap Z PdfPageProviderLine,
    foldl add_page page_lines pages !! rp_page page
    = if check_line_spans (build_page page).2 then Some (build_page page)
      else page_lines !! rp_page page.
Proof.
  induction pages as [|p rest IH]; intros Hnodup Hin page_lines;
    [apply elem_of_nil in Hin; contradiction|].
  rewrite fmap_cons in Hnodup. apply NoDup_cons in Hnodup as [Hfresh Hnodup].
  cbn [foldl]. apply elem_of_cons in Hin as [->|Hin].
  - rewrite add_pages_untouched by exact Hfresh. apply add_page_lookup.
  - rewrite IH by assumption.
    destruct (check_line_spans (build_page page).2); [reflexivity|].
    apply add_page_other. intros Heq. apply Hfresh. rewrite Heq.
    apply list_elem_of_fmap. exists page. split; [reflexivity|exact Hin].
Qed.

End GateFacts.

Section StoredPages.
Context `{Collaborators}.

Lemma setup_page_lines (path : str) (range : option (list Z)) (workers : Z)
    (flatten : bool) (pages : list RawPage) (self : PdfProvider) :
  dictionary_output path range false workers flatten = Some pages ->
  setup path range workers flatten = Some self ->
  page_lines self = foldl add_page ∅ pages.
Proof.
  intros Hpages Hsetup. unfold setup in Hsetup.
  destruct (pdfium_open path) as [d|]; [|discriminate].
  cbn in Hsetup. rewrite Hpages in Hsetup. cbn in Hsetup.
  injection Hsetup as <-. reflexivity.
Qed.

(** Whatever [get_page_lines] returns for a page index was built from a
    record of that index returned by the extractor: it has one list of
    spans per line, at least one span with a visible character, and a
    text that the OCR heuristic did not flag. *)
Theorem get_page_lines_origin (path : str) (range : option (list Z))
    (workers : Z) (flatten : bool) (pages : list RawPage)
    (self : PdfProvider) (idx : Z) (v : PdfPageProviderLine) :
  dictionary_output path range false workers flatten = Some pages ->
  setup path range workers flatten = Some self ->
  get_page_lines self idx = Some v ->
  exists page,
    page ∈ pages /\ rp_page page = idx /\ v = build_page page
    /\ length v.1 = length (raw_lines page)
    /\ length v.2 = length (raw_lines page)
    /\ existsb visible (concat v.2) = true
    /\ detect_bad_ocr (line_spans_text v.2) = false.
Proof.
  intros Hpages Hsetup Hget. unfold get_page_lines in Hget.
  rewrite (setup_page_lines _ _ _ _ _ _ Hpages Hsetup) in Hget.
  apply add_pages_origin in Hget as [Hget|(page & Hin & Hid & <- & Hok)];
    [rewrite lookup_empty in Hget; discriminate|].
  exists page. destruct (build_page_lengths page) as [Hl1 Hl2].
  rewrite check_line_spans_bool in Hok.
  apply andb_true_iff in Hok as [Hvis Hocr]. apply negb_true_iff in Hocr.
  repeat split; assumption.
Qed.

(** A page index that the extractor did not return, such as one outside
    the page range, has no entry: [get_page_lines] raises. *)
Theorem get_page_lines_not_extracted (path : str) (range : option (list Z))
    (workers : Z) (flatten : bool) (pages : list RawPage)
    (self : PdfProvider) (idx : Z) :
  dictionary_output path range false workers flatten = Some pages ->
  setup path range workers flatten = Some self ->
  idx ∉ rp_page <$> pages ->
  get_page_lines self idx = None.
Proof.
  intros Hpages Hsetup Hnot. unfold get_page_lines.
  rewrite (setup_page_lines _ _ _ _ _ _ Hpages Hsetup).
  rewrite add_pages_untouched by exact Hnot. apply lookup_empty.
Qed.

(** When the extractor returns one record per page index, a page is
    stored exactly when it has a raw span that is not blank and the OCR
    heuristic does not flag its text, and what is stored is the page as
    built from its record. *)
Theorem get_page_lines_stored (path : str) (range : option (list Z))
    (workers : Z) (flatten : bool) (pages : list RawPage)
    (self : PdfProvider) (page : RawPage) :
  dictionary_output path range false workers flatten = Some pages ->
  setup path range workers flatten = Some self ->
  NoDup (rp_page <$> pages) ->
  page ∈ pages ->
  get_page_lines self (rp_page page)
  = if existsb kept (flat_map rl_spans (raw_lines page))
       && negb (detect_bad_ocr (line_spans_text (build_page page).2))
    then Some (build_page page) else None.
Proof.
  intros Hpages Hsetup Hnodup Hin. unfold get_page_lines.
  rewrite (setup_page_lines _ _ _ _ _ _ Hpages Hsetup).
  rewrite (add_pages_nodup pages page Hnodup Hin), lookup_empty.
  rewrite <- build_page_any_span, check_line_spans_bool. reflexivity.
Qed.

End StoredPages.

(** ** The further properties on the small instance *)

Lemma classify_math_iff_witness :
  font_flags_to_format 524356 = {[ "math"%string ]}.
Proof.
  apply (proj2 (classify_math_iff (H := demo) 524356 (u "CMMI10-Bold"))).
  by_evaluation.
Defined.


Lemma assemble_html_trims_newlines_witness :
  let self :=
    {| polygon := @from_bbox demo []; page_id := 0; ignore_for_output := false;
       text := [CR; LF] ++ u "end of line" ++ [LF; LF]; font := u "Times";
       font_weight := 400%float; font_size := 10%float;
       minimum_position := 0; maximum_position := 15;
       formats := ["plain"]%string; url := None; anchor := None |} in
  prepared_text self = u "end of line "
  /\ (ignore_for_output self = false -> first_matching self = None ->
      assemble_html self tt tt = u "end of line ").
Proof.
  intros self.
  apply (assemble_html_trims_newlines self tt tt [CR; LF] (u "end of line") [LF; LF]);
    (reflexivity || discriminate).
Defined.

Lemma assemble_html_joins_hyphenated_witness :
  let self :=
    {| polygon := @from_bbox demo []; page_id := 0; ignore_for_output := false;
       text := u "exam-" ++ [LF] ++ u "ple"; font := u "Times";
       font_weight := 400%float; font_size := 10%float;
       minimum_position := 0; maximum_position := 9;
       formats := ["plain"]%string; url := None; anchor := None |} in
  prepared_text self = u "example"
  /\ (ignore_for_output self = false -> first_matching self = None ->
      assemble_html self tt tt = u "example").
Proof.
  intros self.
  apply (assemble_html_joins_hyphenated self tt tt (u "exam") (u "ple"));
    (reflexivity || discriminate).
Defined.

Lemma prepared_text_only_newlines_witness :
  prepared_text
    {| polygon := @from_bbox demo []; page_id := 0; ignore_for_output := false;
       text := [LF; CR; LF]; font := u "Times";
       font_weight := 400%float; font_size := 10%float;
       minimum_position := 0; maximum_position := 3;
       formats := []; url := None; anchor := None |}
  = [SPACE].
Proof.
  apply (prepared_text_only_newlines
           {| polygon := @from_bbox demo []; page_id := 0;
              ignore_for_output := false;
              text := [LF; CR; LF]; font := u "Times";
              font_weight := 400%float; font_size := 10%float;
              minimum_position := 0; maximum_position := 3;
              formats := []; url := None; anchor := None |}).
  reflexivity.
Defined.

Lemma build_page_spans_witness :
  text (make_span (H := demo) 1 demo_hello) <> []
  /\ strip (text (make_span (H := demo) 1 demo_hello))
     = text (make_span (H := demo) 1 demo_hello)
  /\ NoDup (formats (make_span (H := demo) 1 demo_hello)).
Proof.
  assert (Hin : make_span (H := demo) 1 demo_hello
                ∈ concat (build_page (H := demo) (demo_page 1)).2)
    by (apply list_elem_of_In; left; reflexivity).
  destruct (build_page_spans (H := demo) (demo_page 1) _ Hin)
    as (_ & Hne & Hfix & _ & Hdup & _).
  exact (conj Hne (conj Hfix Hdup)).
Defined.

Lemma get_page_lines_origin_witness :
  setup (H := demo) (u "f.pdf") None 4 true = Some demo_provider
  /\ exists page,
       page ∈ demo_pages None /\ rp_page page = 1
       /\ build_page (demo_page 1) = build_page page
       /\ length (build_page (demo_page 1)).1 = length (raw_lines page)
       /\ length (build_page (demo_page 1)).2 = length (raw_lines page)
       /\ existsb visible (concat (build_page (demo_page 1)).2) = true
       /\ detect_bad_ocr (line_spans_text (build_page (demo_page 1)).2) = false.
Proof.
  split; [reflexivity|].
  apply (get_page_lines_origin (H := demo) (u "f.pdf") None 4 true
           (demo_pages None) demo_provider 1 (build_page (demo_page 1)));
    reflexivity.
Defined.

Lemma get_page_lines_not_extracted_witness :
  exists self,
    setup (H := demo) (u "f.pdf") (Some [0; 2]) 4 true = Some self
    /\ get_page_lines self 1 = None.
Proof.
  eexists. split; [reflexivity|].
  apply (get_page_lines_not_extracted (H := demo) (u "f.pdf") (Some [0; 2]) 4 true
           (demo_pages (Some [0; 2]))); [reflexivity|reflexivity|].
  cbn. intros Hin.
  repeat (apply elem_of_cons in Hin as [Hin|Hin]; [discriminate Hin|]).
  apply elem_of_nil in Hin. exact Hin.
Defined.

Lemma get_page_lines_stored_witness :
  exists self,
    setup (H := demo) (u "f.pdf") None 4 true = Some self
    /\ get_page_lines self 1 = Some (build_page (demo_page 1))
    /\ get_page_lines self 2 = None.
Proof.
  eexists. split; [reflexivity|].
  assert (Hnodup : NoDup (rp_page <$> demo_pages None))
    by (cbn; repeat (apply NoDup_cons; split;
          [intros Hin; repeat (apply elem_of_cons in Hin as [Hin|Hin];
             [discriminate Hin|]); apply elem_of_nil in Hin; exact Hin|]);
        apply NoDup_nil; exact I).
  split.
  - apply (get_page_lines_stored (H := demo) (u "f.pdf") None 4 true
             (demo_pages None) _ (demo_page 1));
      [reflexivity|reflexivity|exact Hnodup|right; left].
  - apply (get_page_lines_stored (H := demo) (u "f.pdf") None 4 true
             (demo_pages None) _ (demo_page 2));
      [reflexivity|reflexivity|exact Hnodup|right; right; left].
Defined.
